(** * senseOfSELF: yearly Twitter archive analysis

    A shallow embedding of [senseofself.py] and the properties of its
    ingestion and yearly analytics pipeline.

    The program reads [tweets.js] (a JavaScript assignment wrapping a JSON
    array), builds a pandas frame of [id], [created_at], [full_text], and,
    for every calendar year present, renders a monthly tweet count, the ten
    most common named-entity labels and a word cloud of content lemmas.

    Modelling conventions.
    - A Python [str] is a list of Unicode code points ([N]).
    - A raised exception is the [Raise] branch of [result]; statements are
      sequenced with a bind that stops at the first exception, as Python does.
    - A [collections.Counter] is an association list in insertion order
      (a [dict] keeps insertion order, and [most_common] depends on it).
    - A pandas frame is the list of its rows, in index order.
    - The libraries the program calls but does not own are either written out
      from their documented behaviour ([str.split], [str.strip],
      [json.loads], [Counter], [most_common], [resample('M').size()]) or
      taken as the methods of a class of capabilities (the spaCy pipeline,
      the pandas date parser for one value, the word-cloud renderer, the
      file system). *)

From Stdlib Require String.
From Stdlib Require Import Ascii List NArith ZArith Bool Arith Lia Permutation Sorted.
Import ListNotations.
Import String.StringSyntax.

Set Warnings "-register-all".
Local Open Scope string_scope.
Local Open Scope list_scope.

(** ** Python strings *)

Definition char := N.
Definition str := list char.

(** [u "abc"] is the Python string with the code points of an ASCII literal. *)
Definition u (s : String.string) : str :=
  map N_of_ascii (String.list_ascii_of_string s).
Arguments u : simpl never.

(** [js "{'a': 1}"] is a literal in which the apostrophe stands for the
    double quote, to write JSON text legibly. *)
Definition js (s : String.string) : str :=
  map (fun c => if N.eqb c 39 then 34%N else c) (u s).

Fixpoint str_eqb (a b : str) : bool :=
  match a, b with
  | [], [] => true
  | x :: a', y :: b' => N.eqb x y && str_eqb a' b'
  | _, _ => false
  end.

(** ** Exceptions and the result of a computation that may raise *)

Inductive exn : Type :=
| IndexError
| KeyError (key : str)
| TypeError
| ValueError
| JSONDecodeError
| OSError
(** The two error classes the specification names.  The source defines
    neither, and no statement of the source constructs them. *)
| MalformedArchiveError
| EmptyArchiveError.

Inductive result (A : Type) : Type :=
| Return (a : A)
| Raise (e : exn).
Arguments Return {A} a.
Arguments Raise {A} e.

Definition bind {A B : Type} (m : result A) (k : A -> result B) : result B :=
  match m with
  | Return a => k a
  | Raise e => Raise e
  end.

Notation "x <- m ;; k" := (bind m (fun x => k))
  (at level 61, m at next level, right associativity).

Fixpoint mapM {A B : Type} (f : A -> result B) (l : list A) : result (list B) :=
  match l with
  | [] => Return []
  | x :: l' => y <- f x ;; ys <- mapM f l' ;; Return (y :: ys)
  end.

(** ** [str] methods used by the loader *)

(** [s.split(sep, 1)]: at most one split, at the first [sep]. *)
Fixpoint split_once (sep : char) (s : str) : list str :=
  match s with
  | [] => [[]]
  | c :: s' =>
      if N.eqb c sep then [[]; s']
      else match split_once sep s' with
           | h :: t => (c :: h) :: t
           | [] => [[c]]
           end
  end.

(** [l[i]] on a list. *)
Definition list_getitem {A : Type} (l : list A) (i : nat) : result A :=
  match nth_error l i with
  | Some x => Return x
  | None => Raise IndexError
  end.

(** [str.isspace] for one character: the code points CPython's
    [_PyUnicode_IsWhitespace] accepts. *)
Definition isspace (c : char) : bool :=
  ((9 <=? c) && (c <=? 13) || (28 <=? c) && (c <=? 32)
   || (c =? 133) || (c =? 160) || (c =? 5760)
   || (8192 <=? c) && (c <=? 8202)
   || (c =? 8232) || (c =? 8233) || (c =? 8239) || (c =? 8287)
   || (c =? 12288))%N.

Fixpoint lstrip (s : str) : str :=
  match s with
  | [] => []
  | c :: s' => if isspace c then lstrip s' else s
  end.

(** [s.strip()] *)
Definition strip (s : str) : str := rev (lstrip (rev (lstrip s))).

Definition semicolon : char := 59%N.
Definition equals_sign : char := 61%N.

(** [s.endswith(';')] *)
Definition endswith_semicolon (s : str) : bool :=
  match rev s with
  | c :: _ => N.eqb c semicolon
  | [] => false
  end.

(** [s[:-1]] *)
Definition drop_last (s : str) : str := removelast s.

(** ** JSON values, as [json.loads] builds them *)

(** [JFloat] keeps the literal of a float ([1.5e3], [NaN], [Infinity]):
    binary rounding is not modelled, and no statement of the program reads
    a number.  An object is a [dict]: keys are unique and keep the position
    of their first insertion. *)
Inductive value : Type :=
| JNull
| JBool (b : bool)
| JInt (z : Z)
| JFloat (literal : str)
| JString (s : str)
| JArray (items : list value)
| JObject (members : list (str * value)).

(** [d[k] = v] on a [dict]. *)
Fixpoint dict_set {V : Type} (k : str) (v : V) (d : list (str * V))
  : list (str * V) :=
  match d with
  | [] => [(k, v)]
  | (k', v') :: d' =>
      if str_eqb k k' then (k', v) :: d' else (k', v') :: dict_set k v d'
  end.

(** [d.get(k)] on a [dict]. *)
Fixpoint dict_get {V : Type} (k : str) (d : list (str * V)) : option V :=
  match d with
  | [] => None
  | (k', v) :: d' => if str_eqb k k' then Some v else dict_get k d'
  end.

(** ** [json.loads]

    The decoder of CPython's [json] package with its default settings
    (strict strings, the constants [NaN], [Infinity], [-Infinity] accepted).
    Every failure is a [JSONDecodeError].  The interpreter's recursion limit
    and its limit on the digits of an integer literal are not modelled. *)

Module Json.

Local Open Scope N_scope.

Inductive scan (A : Type) : Type :=
| Scanned (a : A) (rest : str)
| NoParse
| OutOfFuel.
Arguments Scanned {A} a rest.
Arguments NoParse {A}.
Arguments OutOfFuel {A}.

(** JSON whitespace: space, tab, line feed, carriage return. *)
Definition is_ws (c : char) : bool :=
  (c =? 32) || (c =? 9) || (c =? 10) || (c =? 13).

Fixpoint skip_ws (s : str) : str :=
  match s with
  | [] => []
  | c :: s' => if is_ws c then skip_ws s' else s
  end.

Definition is_digit (c : char) : bool := (48 <=? c) && (c <=? 57).

Definition hexval (c : char) : option N :=
  if is_digit c then Some (c - 48)
  else if (97 <=? c) && (c <=? 102) then Some (c - 87)
  else if (65 <=? c) && (c <=? 70) then Some (c - 55)
  else None.

Definition hex4 (a b c d : char) : option N :=
  match hexval a, hexval b, hexval c, hexval d with
  | Some x, Some y, Some z, Some w => Some (((x * 16 + y) * 16 + z) * 16 + w)
  | _, _, _, _ => None
  end.

(** The character a one-letter escape stands for. *)
Definition simple_escape (e : char) : option char :=
  if e =? 34 then Some 34          (* quote *)
  else if e =? 92 then Some 92     (* backslash *)
  else if e =? 47 then Some 47     (* slash *)
  else if e =? 98 then Some 8      (* b: backspace *)
  else if e =? 102 then Some 12    (* f: form feed *)
  else if e =? 110 then Some 10    (* n: line feed *)
  else if e =? 114 then Some 13    (* r: carriage return *)
  else if e =? 116 then Some 9     (* t: tab *)
  else None.

Definition is_high_surrogate (c : N) : bool := (55296 <=? c) && (c <=? 56319).
Definition is_low_surrogate (c : N) : bool := (56320 <=? c) && (c <=? 57343).
Definition join_surrogates (hi lo : N) : N :=
  65536 + ((hi - 55296) * 1024 + (lo - 56320)).

(** The body of a string, after its opening quote; [acc] is the decoded
    prefix, reversed.  Returns the decoded string and what follows the
    closing quote. *)
Fixpoint scan_string (s : str) (acc : str) : option (str * str) :=
  match s with
  | [] => None
  | c :: s1 =>
      if c =? 34 then Some (rev acc, s1)
      else if c =? 92 then
        match s1 with
        | [] => None
        | e :: s2 =>
            if e =? 117 then
              match s2 with
              | h1 :: h2 :: h3 :: h4 :: s3 =>
                  match hex4 h1 h2 h3 h4 with
                  | None => None
                  | Some uni =>
                      match s3 with
                      | b :: u' :: g1 :: g2 :: g3 :: g4 :: s4 =>
                          if is_high_surrogate uni && (b =? 92) && (u' =? 117)
                          then
                            match hex4 g1 g2 g3 g4 with
                            | None => None
                            | Some uni2 =>
                                if is_low_surrogate uni2
                                then scan_string s4
                                       (join_surrogates uni uni2 :: acc)
                                else scan_string s3 (uni :: acc)
                            end
                          else scan_string s3 (uni :: acc)
                      | _ => scan_string s3 (uni :: acc)
                      end
                  end
              | _ => None
              end
            else
              match simple_escape e with
              | Some ch => scan_string s2 (ch :: acc)
              | None => None
              end
        end
      else if c <? 32 then None
      else scan_string s1 (c :: acc)
  end.

Fixpoint span_digits (s : str) : str * str :=
  match s with
  | [] => ([], [])
  | c :: s' =>
      if is_digit c then let (d, r) := span_digits s' in (c :: d, r)
      else ([], s)
  end.

(** The integer part of a number: an optional minus sign, then either
    a single 0 or a non-zero digit followed by any digits. *)
Definition scan_integer (s : str) : option (str * str) :=
  let (sign, s1) :=
    match s with
    | c :: s' => if c =? 45 then ([45], s') else ([], s)
    | [] => ([], s)
    end in
  match s1 with
  | [] => None
  | c :: s2 =>
      if c =? 48 then Some (sign ++ [48], s2)
      else if is_digit c
           then let (d, r) := span_digits s2 in Some (sign ++ c :: d, r)
           else None
  end.

(** The optional fraction: a dot and at least one digit. *)
Definition scan_frac (s : str) : str * str :=
  match s with
  | c :: s1 =>
      if c =? 46 then
        match span_digits s1 with
        | ([], _) => ([], s)
        | (d, r) => (46 :: d, r)
        end
      else ([], s)
  | [] => ([], s)
  end.

(** The optional exponent: e or E, an optional sign, at least one digit. *)
Definition scan_exp (s : str) : str * str :=
  match s with
  | e :: s1 =>
      if (e =? 101) || (e =? 69) then
        let (sg, s2) :=
          match s1 with
          | c :: s' => if (c =? 45) || (c =? 43) then ([c], s') else ([], s1)
          | [] => ([], s1)
          end in
        match span_digits s2 with
        | ([], _) => ([], s)
        | (d, r) => (e :: sg ++ d, r)
        end
      else ([], s)
  | [] => ([], s)
  end.

(** [int(literal)] for a literal [scan_integer] accepted. *)
Definition int_of_literal (lit : str) : Z :=
  let digits_value (ds : str) : Z :=
    fold_left (fun acc c => (acc * 10 + Z.of_N (c - 48))%Z) ds 0%Z in
  match lit with
  | c :: ds => if c =? 45 then Z.opp (digits_value ds) else digits_value lit
  | [] => 0%Z
  end.

Definition scan_number (s : str) : option (value * str) :=
  match scan_integer s with
  | None => None
  | Some (integer, s1) =>
      let (frac, s2) := scan_frac s1 in
      let (exp, s3) := scan_exp s2 in
      match frac, exp with
      | [], [] => Some (JInt (int_of_literal integer), s3)
      | _, _ => Some (JFloat (integer ++ frac ++ exp), s3)
      end
  end.

(** [s] with the prefix [p] removed, when [s] starts with [p]. *)
Fixpoint strip_prefix (p s : str) : option str :=
  match p, s with
  | [], _ => Some s
  | a :: p', b :: s' => if a =? b then strip_prefix p' s' else None
  | _ :: _, [] => None
  end.

(** The constants and numbers: every value that starts with neither a
    quote, a brace nor a bracket. *)
Definition scan_atom (s : str) : scan value :=
  match strip_prefix (u "null") s with
  | Some r => Scanned JNull r
  | None =>
  match strip_prefix (u "true") s with
  | Some r => Scanned (JBool true) r
  | None =>
  match strip_prefix (u "false") s with
  | Some r => Scanned (JBool false) r
  | None =>
  match scan_number s with
  | Some (v, r) => Scanned v r
  | None =>
  match strip_prefix (u "NaN") s with
  | Some r => Scanned (JFloat (u "NaN")) r
  | None =>
  match strip_prefix (u "Infinity") s with
  | Some r => Scanned (JFloat (u "Infinity")) r
  | None =>
  match strip_prefix (u "-Infinity") s with
  | Some r => Scanned (JFloat (u "-Infinity")) r
  | None => NoParse
  end end end end end end end.

(** [scan_once]: one value at the head of [s].  [parse_items] reads the
    items of a non-empty array after its bracket, [parse_members] the
    members of a non-empty object after its brace. *)
Fixpoint scan_once (fuel : nat) (s : str) {struct fuel} : scan value :=
  match fuel with
  | O => OutOfFuel
  | S f =>
      match s with
      | [] => NoParse
      | c :: s' =>
          if c =? 34 then
            match scan_string s' [] with
            | Some (t, r) => Scanned (JString t) r
            | None => NoParse
            end
          else if c =? 123 then
            match skip_ws s' with
            | c' :: r =>
                if c' =? 125 then Scanned (JObject []) r
                else parse_members f [] (skip_ws s')
            | [] => NoParse
            end
          else if c =? 91 then
            match skip_ws s' with
            | c' :: r =>
                if c' =? 93 then Scanned (JArray []) r
                else parse_items f [] (skip_ws s')
            | [] => NoParse
            end
          else scan_atom s
      end
  end

with parse_items (fuel : nat) (acc : list value) (s : str) {struct fuel}
  : scan value :=
  match fuel with
  | O => OutOfFuel
  | S f =>
      match scan_once f s with
      | Scanned v r =>
          match skip_ws r with
          | c :: r' =>
              if c =? 93 then Scanned (JArray (rev (v :: acc))) r'
              else if c =? 44 then parse_items f (v :: acc) (skip_ws r')
              else NoParse
          | [] => NoParse
          end
      | NoParse => NoParse
      | OutOfFuel => OutOfFuel
      end
  end

with parse_members (fuel : nat) (acc : list (str * value)) (s : str)
  {struct fuel} : scan value :=
  match fuel with
  | O => OutOfFuel
  | S f =>
      match s with
      | q :: s1 =>
          if q =? 34 then
            match scan_string s1 [] with
            | None => NoParse
            | Some (key, r1) =>
                match skip_ws r1 with
                | colon :: r2 =>
                    if colon =? 58 then
                      match scan_once f (skip_ws r2) with
                      | Scanned v r3 =>
                          match skip_ws r3 with
                          | c :: r4 =>
                              if c =? 125
                              then Scanned (JObject (dict_set key v acc)) r4
                              else if c =? 44
                              then parse_members f (dict_set key v acc)
                                     (skip_ws r4)
                              else NoParse
                          | [] => NoParse
                          end
                      | NoParse => NoParse
                      | OutOfFuel => OutOfFuel
                      end
                    else NoParse
                | [] => NoParse
                end
            end
          else NoParse
      | [] => NoParse
      end
  end.

(** [JSONDecoder.decode]: one value, surrounded by optional whitespace,
    and nothing else. *)
Definition decode (s : str) : scan value :=
  match scan_once (2 * length s + 2) (skip_ws s) with
  | Scanned v r =>
      match skip_ws r with
      | [] => Scanned v []
      | _ :: _ => NoParse
      end
  | NoParse => NoParse
  | OutOfFuel => OutOfFuel
  end.

(** [json.loads(s)] for a [str]: a leading byte order mark is refused. *)
Definition loads (s : str) : result value :=
  match s with
  | 65279 :: _ => Raise JSONDecodeError
  | _ =>
      match decode s with
      | Scanned v _ => Return v
      | NoParse => Raise JSONDecodeError
      | OutOfFuel => Raise JSONDecodeError
      end
  end.

End Json.

(** ** Python operations on decoded values *)

(** [for x in v]: the items of a list, the keys of a dict, the characters
    of a string; anything else is not iterable. *)
Definition iterate (v : value) : result (list value) :=
  match v with
  | JArray items => Return items
  | JObject members => Return (map (fun kv => JString (fst kv)) members)
  | JString s => Return (map (fun c => JString [c]) s)
  | _ => Raise TypeError
  end.

(** [v[k]] for a string key [k]: only a dict accepts it. *)
Definition getitem (v : value) (k : str) : result value :=
  match v with
  | JObject members =>
      match dict_get k members with
      | Some x => Return x
      | None => Raise (KeyError k)
      end
  | _ => Raise TypeError
  end.

Fixpoint is_prefix (p s : str) : bool :=
  match p, s with
  | [], _ => true
  | a :: p', b :: s' => N.eqb a b && is_prefix p' s'
  | _ :: _, [] => false
  end.

Fixpoint is_substring (p s : str) : bool :=
  is_prefix p s || match s with
                   | [] => false
                   | _ :: s' => is_substring p s'
                   end.

(** [k in v] for a string [k]: a key of a dict, an item of a list, a
    substring of a string. *)
Definition contains (k : str) (v : value) : result bool :=
  match v with
  | JObject members =>
      Return (match dict_get k members with Some _ => true | None => false end)
  | JArray items =>
      Return (existsb (fun x => match x with
                                | JString s => str_eqb s k
                                | _ => false
                                end) items)
  | JString s => Return (is_substring k s)
  | _ => Raise TypeError
  end.

(** ** pandas timestamps and frames *)

Record datetime : Type := mk_datetime
  { year : Z; month : Z; day : Z; hour : Z; minute : Z; second : Z }.

(** A cell of a [datetime64] column: a point in time or [NaT]. *)
Inductive Timestamp : Type :=
| NaT
| TS (d : datetime).

(** The dict appended to [tweets] for one array element. *)
Record RawTweet : Type := mk_raw
  { raw_id : value; raw_created_at : value; raw_full_text : value }.

(** A row of the frame [load_twitter_data] returns. *)
Record Row : Type := mk_row
  { id : value; created_at : Timestamp; full_text : value }.

Definition DataFrame := list Row.

(** [Series.dt.year]: [None] stands for the NaN of a [NaT] cell. *)
Definition dt_year (t : Timestamp) : option Z :=
  match t with
  | NaT => None
  | TS d => Some (year d)
  end.

(** [==] on the years of a column: NaN equals nothing. *)
Definition year_eqb (a b : option Z) : bool :=
  match a, b with
  | Some x, Some y => Z.eqb x y
  | _, _ => false
  end.

(** The order [numpy.sort] uses: numbers ascending, NaN last. *)
Definition year_leb (a b : option Z) : bool :=
  match a, b with
  | Some x, Some y => Z.leb x y
  | _, None => true
  | None, Some _ => false
  end.

(** The same value of a column of years: every NaN is the same value. *)
Definition year_same (a b : option Z) : bool :=
  match a, b with
  | Some x, Some y => Z.eqb x y
  | None, None => true
  | _, _ => false
  end.

(** [Series.unique]: the distinct values, in order of first appearance. *)
Fixpoint unique (l : list (option Z)) : list (option Z) :=
  match l with
  | [] => []
  | x :: l' => x :: filter (fun y => negb (year_same x y)) (unique l')
  end.

Fixpoint insert_year (x : option Z) (l : list (option Z)) : list (option Z) :=
  match l with
  | [] => [x]
  | y :: l' => if year_leb x y then x :: l else y :: insert_year x l'
  end.

Definition sort_years (l : list (option Z)) : list (option Z) :=
  fold_right insert_year [] l.

(** *** [resample('M', on='created_at').size()]

    One bin per calendar month, from the month of the earliest timestamp
    to the month of the latest, each labelled by the month it covers and
    holding the number of rows in it.  Months are numbered
    [12 * year + (month - 1)].  A frame without rows gives no bin.  [NaT]
    cells belong to no month; the program never resamples a frame
    that has one, since it selects each frame by the year of [created_at]. *)

Definition month_index (d : datetime) : Z := year d * 12 + (month d - 1).

Definition month_of_index (k : Z) : Z * Z := (k / 12, k mod 12 + 1)%Z.

Definition month_indices (stamps : list Timestamp) : list Z :=
  flat_map (fun t => match t with
                     | NaT => []
                     | TS d => [month_index d]
                     end) stamps.

Definition resample_M_size (stamps : list Timestamp) : list ((Z * Z) * nat) :=
  match month_indices stamps with
  | [] => []
  | k :: ks =>
      let lo := fold_left Z.min ks k in
      let hi := fold_left Z.max ks k in
      map (fun i => let b := (lo + Z.of_nat i)%Z in
                    (month_of_index b, count_occ Z.eq_dec (k :: ks) b))
          (seq 0 (Z.to_nat (hi - lo + 1)))
  end.

(** ** spaCy documents *)

Record Token : Type := mk_token
  { lemma_ : str; is_stop : bool; is_punct : bool; is_alpha : bool }.

Record Span : Type := mk_span { label_ : str }.

Record Doc : Type := mk_doc { ents : list Span; tokens : list Token }.

(** ** [collections.Counter] *)

Definition Counter := list (str * nat).

(** [c[x] = c.get(x, 0) + 1] *)
Definition counter_add (x : str) (c : Counter) : Counter :=
  dict_set x (S (match dict_get x c with Some n => n | None => 0 end)) c.

(** [Counter(xs)] *)
Definition Counter_of (xs : list str) : Counter :=
  fold_left (fun c x => counter_add x c) xs [].

(** [sorted(items, key=itemgetter(1), reverse=True)]: a stable sort, so
    items of equal count keep the order they have in the dict.  Written as
    an insertion sort from the right, where an item goes before every item
    whose count is not larger. *)
Fixpoint insert_desc (x : str * nat) (l : list (str * nat)) : list (str * nat) :=
  match l with
  | [] => [x]
  | y :: l' => if snd x <? snd y then y :: insert_desc x l' else x :: l
  end.

Definition sorted_desc (l : list (str * nat)) : list (str * nat) :=
  fold_right insert_desc [] l.

(** [c.most_common(n)] is [heapq.nlargest(n, c.items(), key=itemgetter(1))],
    which the library defines as the first [n] items of the sort above. *)
Definition most_common (n : nat) (c : Counter) : list (str * nat) :=
  firstn n (sorted_desc c).

(** ** Stand-ins for the external capabilities

    The program takes a file system, the pandas date parser, the spaCy
    pipeline and the word-cloud renderer from its environment.  The
    definitions below are simple instances of the four, used to run the
    program on explicit archives. *)

(** [s.split(sep)] *)
Fixpoint split_on (sep : char) (s : str) : list str :=
  match s with
  | [] => [[]]
  | c :: s' =>
      match split_on sep s' with
      | h :: t => if N.eqb c sep then [] :: h :: t else (c :: h) :: t
      | [] => [[c]]
      end
  end.

(** A non-empty run of ASCII digits as a number. *)
Definition number_of_digits (s : str) : option Z :=
  match s with
  | [] => None
  | _ :: _ =>
      if forallb Json.is_digit s
      then Some (fold_left (fun acc c => (acc * 10 + Z.of_N (c - 48))%Z) s 0%Z)
      else None
  end.

Definition index_of_name (names : list String.string) (s : str) : option nat :=
  (fix find (l : list String.string) (i : nat) : option nat :=
     match l with
     | [] => None
     | n :: l' => if str_eqb (u n) s then Some i else find l' (S i)
     end) names 0.

Definition weekday_names : list String.string :=
  ["Mon"; "Tue"; "Wed"; "Thu"; "Fri"; "Sat"; "Sun"].

Definition month_names : list String.string :=
  ["Jan"; "Feb"; "Mar"; "Apr"; "May"; "Jun";
   "Jul"; "Aug"; "Sep"; "Oct"; "Nov"; "Dec"].

Definition in_range (lo hi : Z) (x : option Z) : option Z :=
  match x with
  | Some z => if (lo <=? z)%Z && (z <=? hi)%Z then Some z else None
  | None => None
  end.

(** The [created_at] text of a Twitter archive,
    [Wed Oct 10 20:19:24 +0000 2018], read field by field. *)
Definition parse_created_at (s : str) : option datetime :=
  match split_on 32%N s with
  | [wd; mon; dd; time; zone; yyyy] =>
      match index_of_name weekday_names wd,
            index_of_name month_names mon,
            in_range 1 31 (number_of_digits dd),
            split_on 58%N time,
            zone,
            in_range 1 9999 (number_of_digits yyyy) with
      | Some _, Some m, Some d, [hh; mm; ss], sign :: offset, Some y =>
          match in_range 0 23 (number_of_digits hh),
                in_range 0 59 (number_of_digits mm),
                in_range 0 59 (number_of_digits ss),
                in_range 0 2359 (number_of_digits offset) with
          | Some h, Some mi, Some sec, Some _ =>
              if (N.eqb sign 43 || N.eqb sign 45)
                 && Nat.eqb (length dd) 2 && Nat.eqb (length hh) 2
                 && Nat.eqb (length mm) 2 && Nat.eqb (length ss) 2
                 && Nat.eqb (length offset) 4 && Nat.eqb (length yyyy) 4
              then Some (mk_datetime y (Z.of_nat (S m)) d h mi sec)
              else None
          | _, _, _, _ => None
          end
      | _, _, _, _, _, _ => None
      end
  | _ => None
  end.

(** A date parser for the cells of a Twitter archive: the archive's own
    format, [NaT] for [null], and [ValueError] for anything else.  pandas
    reads more formats than this one; the examples apply it to cells in the
    archive's format and to cells that are not dates at all. *)
Definition archive_to_datetime (v : value) : result Timestamp :=
  match v with
  | JNull => Return NaT
  | JString s =>
      match parse_created_at s with
      | Some d => Return (TS d)
      | None => Raise ValueError
      end
  | _ => Raise ValueError
  end.

(** An annotator given by a table from texts to documents: a text outside
    the table has no entity and no token, a value that is not a string is
    refused. *)
Definition table_nlp (table : list (str * Doc)) (v : value) : result Doc :=
  match v with
  | JString s =>
      match dict_get s table with
      | Some doc => Return doc
      | None => Return (mk_doc [] [])
      end
  | _ => Raise ValueError
  end.

(** A renderer with a single layout; like the word-cloud library, it
    refuses a table without words. *)
Definition refuse_empty (frequencies : Counter) : option exn :=
  match frequencies with
  | [] => Some ValueError
  | _ :: _ => None
  end.

Definition plain_layout (seed : N) (frequencies : Counter) : unit := tt.

(** A file system with one file. *)
Definition single_file (name content : str) (file_path : str) : result str :=
  if str_eqb file_path name then Return content else Raise OSError.

(** * The program *)

(** A word-cloud figure: the table it draws and where the words are put. *)
Record Figure (Layout : Type) : Type := mk_figure
  { drawn_from : Counter; layout : Layout }.
Arguments mk_figure {Layout} drawn_from layout.
Arguments drawn_from {Layout} f.
Arguments layout {Layout} f.

(** What a run puts on the page, in order.  An element that interpolates
    values into a fixed text carries the values. *)
Inductive element (Layout : Type) : Type :=
| Title
| Header_journey
| Write_total (rows : nat)
| Write_date_range (first last : Timestamp)
| Header_year (y : option Z)
| Subheader_rhythm
| Line_chart (tweet_counts : list ((Z * Z) * nat))
| Subheader_subjects
| Bar_chart (top_entities : list (str * nat))
| Subheader_vocabulary
| Pyplot (fig : Figure Layout)
| Write_rule
| Error (e : exn).
Arguments Title {Layout}.
Arguments Header_journey {Layout}.
Arguments Write_total {Layout} rows.
Arguments Write_date_range {Layout} first last.
Arguments Header_year {Layout} y.
Arguments Subheader_rhythm {Layout}.
Arguments Line_chart {Layout} tweet_counts.
Arguments Subheader_subjects {Layout}.
Arguments Bar_chart {Layout} top_entities.
Arguments Subheader_vocabulary {Layout}.
Arguments Pyplot {Layout} fig.
Arguments Write_rule {Layout}.
Arguments Error {Layout} e.

(** An element without the layout of its figure: the data it reports. *)
Definition reported {Layout : Type} (e : element Layout) : element unit :=
  match e with
  | Title => Title
  | Header_journey => Header_journey
  | Write_total n => Write_total n
  | Write_date_range a b => Write_date_range a b
  | Header_year y => Header_year y
  | Subheader_rhythm => Subheader_rhythm
  | Line_chart c => Line_chart c
  | Subheader_subjects => Subheader_subjects
  | Bar_chart t => Bar_chart t
  | Subheader_vocabulary => Subheader_vocabulary
  | Pyplot fig => Pyplot (mk_figure (drawn_from fig) tt)
  | Write_rule => Write_rule
  | Error e => Error e
  end.

(** [<=] on timestamps of one time zone. *)
Definition datetime_leb (a b : datetime) : bool :=
  let key d := [year d; month d; day d; hour d; minute d; second d] in
  let fix lex (x y : list Z) : bool :=
    match x, y with
    | p :: x', q :: y' => if Z.eqb p q then lex x' y' else Z.ltb p q
    | _, _ => true
    end in
  lex (key a) (key b).

(** [Series.min()] and [Series.max()] skip [NaT]; a column of [NaT] only
    gives [NaT]. *)
Definition stamp_min (a b : Timestamp) : Timestamp :=
  match a, b with
  | NaT, _ => b
  | _, NaT => a
  | TS x, TS y => if datetime_leb x y then a else b
  end.

Definition stamp_max (a b : Timestamp) : Timestamp :=
  match a, b with
  | NaT, _ => b
  | _, NaT => a
  | TS x, TS y => if datetime_leb x y then b else a
  end.

Definition series_min (l : list Timestamp) : Timestamp := fold_left stamp_min l NaT.
Definition series_max (l : list Timestamp) : Timestamp := fold_left stamp_max l NaT.

(** The text handed to [json.loads]: what follows the first [=], stripped,
    without one trailing semicolon. *)
Definition json_text (after : str) : str :=
  let json_str := strip after in
  if endswith_semicolon json_str then drop_last json_str else json_str.

Definition tweets_js : str := u "tweets.js".

(** The capabilities the program takes from its environment.

    - [open_read]: [open(file_path, 'r', encoding='utf-8').read()], the
      decoded text of the file, or the exception opening or decoding it
      raises.
    - [to_datetime_scalar]: the pandas date parser on one cell of an object
      column: a timestamp, [NaT] for a missing value, or the exception it
      raises on a value it cannot read.
    - [nlp]: the spaCy pipeline on one element of a batch: the annotated
      document, or the exception the pipeline raises on that element.
    - [wordcloud_refuses], [wordcloud_layout]:
      [WordCloud.generate_from_frequencies].  Whether a table can be drawn
      at all depends on the table (the library refuses a table without
      words); where the words are put is drawn at random, and the seed
      stands for the state of the random generator the call creates. *)
Class Capabilities : Type := {
  open_read : str -> result str;
  to_datetime_scalar : value -> result Timestamp;
  nlp : value -> result Doc;
  Layout : Type;
  wordcloud_refuses : Counter -> option exn;
  wordcloud_layout : N -> Counter -> Layout
}.

(** The program on one file [tweets.js] with the given content, the date
    parser of the archive format, an annotator given by a table and the
    renderer with a single layout. *)
Definition on_archive (content : str) (annotations : list (str * Doc))
  : Capabilities :=
  {| open_read := single_file tweets_js content;
     to_datetime_scalar := archive_to_datetime;
     nlp := table_nlp annotations;
     Layout := unit;
     wordcloud_refuses := refuse_empty;
     wordcloud_layout := plain_layout |}.

Section Program.

Context {env : Capabilities}.

(** [pd.to_datetime(series)] with the default [errors='raise']: every cell
    is converted, and the first cell that cannot be raises. *)
Definition to_datetime (cells : list value) : result (list Timestamp) :=
  mapM to_datetime_scalar cells.

(** Lines 24 to 30. *)
Definition read_payload (content : str) : result value :=
  after <- list_getitem (split_once equals_sign content) 1 ;;
  Json.loads (json_text after).

(** Lines 35 to 40: the dict built for one element of the array. *)
Definition extract_tweet (tweet : value) : result RawTweet :=
  tweet_data <- getitem tweet (u "tweet") ;;
  i <- getitem tweet_data (u "id") ;;
  c <- getitem tweet_data (u "created_at") ;;
  has_full <- contains (u "full_text") tweet_data ;;
  t <- (if has_full : bool
        then getitem tweet_data (u "full_text")
        else getitem tweet_data (u "text")) ;;
  Return (mk_raw i c t).

(** Lines 33 to 40: the loop over the decoded document. *)
Definition extract_tweets (data : value) : result (list RawTweet) :=
  items <- iterate data ;;
  mapM extract_tweet items.

(** Lines 42 and 43.  [pd.DataFrame([])] has no column, so subscripting it
    with ['created_at'] raises [KeyError]. *)
Definition to_frame (tweets : list RawTweet) : result DataFrame :=
  match tweets with
  | [] => Raise (KeyError (u "created_at"))
  | _ :: _ =>
      stamps <- to_datetime (map raw_created_at tweets) ;;
      Return (map (fun p => mk_row (raw_id (fst p)) (snd p)
                                   (raw_full_text (fst p)))
                  (combine tweets stamps))
  end.

Definition load_twitter_data (file_path : str) : result DataFrame :=
  content <- open_read file_path ;;
  data <- read_payload content ;;
  tweets <- extract_tweets data ;;
  to_frame tweets.

(** [list(nlp.pipe(tweets, batch_size=100))]: the batch size groups the
    texts, it does not change their documents. *)
Definition nlp_pipe (tweets : list value) : result (list Doc) :=
  mapM nlp tweets.

Definition keep_token (t : Token) : bool :=
  negb (is_stop t) && negb (is_punct t) && is_alpha t.

Definition entity_labels (docs : list Doc) : list str :=
  flat_map (fun doc => map label_ (ents doc)) docs.

Definition content_lemmas (docs : list Doc) : list str :=
  flat_map (fun doc => map lemma_ (filter keep_token (tokens doc))) docs.

Definition analyze_self_expression (tweets : list value)
  : result (Counter * Counter) :=
  docs <- nlp_pipe tweets ;;
  let entities := entity_labels docs in
  let lemmas := content_lemmas docs in
  Return (Counter_of entities, Counter_of lemmas).

Definition generate_wordcloud (seed : N) (lemmas_count : Counter)
  : result (Figure Layout) :=
  match wordcloud_refuses lemmas_count with
  | Some e => Raise e
  | None =>
      Return (mk_figure lemmas_count (wordcloud_layout seed lemmas_count))
  end.

Definition analyze_year (seed : N) (df_year : DataFrame)
  : result (list ((Z * Z) * nat) * list (str * nat) * Figure Layout) :=
  let tweet_counts := resample_M_size (map created_at df_year) in
  counts <- analyze_self_expression (map full_text df_year) ;;
  let top_entities := most_common 10 (fst counts) in
  wordcloud_fig <- generate_wordcloud seed (snd counts) ;;
  Return (tweet_counts, top_entities, wordcloud_fig).

(** [df[df['created_at'].dt.year == year]] *)
Definition select_year (df : DataFrame) (y : option Z) : DataFrame :=
  filter (fun r => year_eqb (dt_year (created_at r)) y) df.

(** [years = df['created_at'].dt.year.unique(); years.sort()] *)
Definition years_of (df : DataFrame) : list (option Z) :=
  sort_years (unique (map (fun r => dt_year (created_at r)) df)).

(** The loop of [main]: the elements written until the first exception,
    and that exception if there is one.  [seeds k] seeds the word cloud of
    the [k]-th year. *)
Fixpoint render_years (seeds : nat -> N) (df : DataFrame)
  (years : list (option Z)) : list (element Layout) * option exn :=
  match years with
  | [] => ([], None)
  | y :: years' =>
      match analyze_year (seeds O) (select_year df y) with
      | Raise e => ([Header_year y], Some e)
      | Return (tweet_counts, top_entities, wordcloud_fig) =>
          let (rest, e) := render_years (fun k => seeds (S k)) df years' in
          ([Header_year y;
            Subheader_rhythm; Line_chart tweet_counts;
            Subheader_subjects; Bar_chart top_entities;
            Subheader_vocabulary; Pyplot wordcloud_fig;
            Write_rule] ++ rest, e)
      end
  end.

(** [@st.cache_data]: the results of [load_twitter_data] kept by the
    process, by argument.  A call that raises stores nothing. *)
Definition Cache := list (str * DataFrame).

Definition cached_load_twitter_data (cache : Cache) (file_path : str)
  : result DataFrame * Cache :=
  match dict_get file_path cache with
  | Some df => (Return df, cache)
  | None =>
      match load_twitter_data file_path with
      | Return df => (Return df, dict_set file_path df cache)
      | Raise e => (Raise e, cache)
      end
  end.

(** One run of the script: the page it writes and the cache it leaves. *)
Definition main (seeds : nat -> N) (cache : Cache)
  : list (element Layout) * Cache :=
  let (loaded, cache') := cached_load_twitter_data cache tweets_js in
  match loaded with
  | Raise e => ([Title; Error e], cache')
  | Return df =>
      let stamps := map created_at df in
      let (page, e) := render_years seeds df (years_of df) in
      ([Title; Header_journey; Write_total (length df);
        Write_date_range (series_min stamps) (series_max stamps)]
         ++ page
         ++ match e with Some e' => [Error e'] | None => [] end,
       cache')
  end.

Definition str_eq_dec : forall a b : str, {a = b} + {a <> b} :=
  list_eq_dec N.eq_dec.

(** The number of occurrences of a label in a sequence. *)
Definition occurrences (a : str) (xs : list str) : nat :=
  count_occ str_eq_dec xs a.

(** The position at which a label is first seen. *)
Fixpoint first_index (a : str) (xs : list str) : nat :=
  match xs with
  | [] => 0
  | x :: xs' => if str_eqb a x then 0 else S (first_index a xs')
  end.

(** The order of [most_common]: larger counts first, and among equal
    counts the label seen first. *)
Definition ranked_before (rank : str * nat -> nat) (x y : str * nat) : Prop :=
  snd y < snd x \/ (snd x = snd y /\ rank x < rank y).

Definition first_seen (labels : list str) (x : str * nat) : nat :=
  first_index (fst x) labels.

(** A token the lemma table must not count. *)
Definition flagged (t : Token) : Prop :=
  is_stop t = true \/ is_punct t = true \/ is_alpha t = false.

(** The rows of a frame whose timestamp falls in month [m]. *)
Definition in_month (m : Z) (t : Timestamp) : bool :=
  match t with
  | TS d => Z.eqb (month d) m
  | NaT => false
  end.

Definition rows_in_month (df : DataFrame) (m : Z) : nat :=
  length (filter (fun r => in_month m (created_at r)) df).

(** The months [first], [first + 1], ..., [last]. *)
Definition months_from (first last : Z) : list Z :=
  map (fun i => (first + Z.of_nat i)%Z) (seq 0 (Z.to_nat (last - first + 1))).

(** A row of the year [y]. *)
Definition in_year (y : Z) (r : Row) : Prop :=
  exists d, created_at r = TS d /\ year d = y /\ (1 <= month d <= 12)%Z.

(** ** What the statements below speak of *)


(** The two limits of the interpreter that [json.loads] can meet and that
    [Json.loads] leaves out.  The scanner recurses once for every array or
    object that is open, and raises [RecursionError] when the interpreter
    has no frame left for one more; the conversion of an integer literal
    raises [ValueError] when the literal has more digits than
    [sys.get_int_max_str_digits()].  A text opens at most as many
    containers at once as it has opening brackets and braces, and its
    integer literals are runs of digits: a text with at most [nesting]
    opening brackets and braces and no run of more than [max_str_digits]
    digits meets neither limit in an interpreter that, at the call, can
    nest [nesting] containers and converts literals of [max_str_digits]
    digits. *)
Definition opening_brackets (t : str) : nat :=
  length (filter (fun c => (c =? 91) || (c =? 123))%N t).

Fixpoint longest_digit_run_from (run : nat) (t : str) : nat :=
  match t with
  | [] => run
  | c :: t' =>
      if Json.is_digit c then longest_digit_run_from (S run) t'
      else Nat.max run (longest_digit_run_from 0 t')
  end.

Definition longest_digit_run (t : str) : nat := longest_digit_run_from 0 t.

Definition within_interpreter_limits (nesting max_str_digits : nat) (t : str)
  : Prop :=
  opening_brackets t <= nesting /\ longest_digit_run t <= max_str_digits.

(** The fields the loader takes from one element of the array: the element
    is a dict whose ["tweet"] entry is a dict with [id] and [created_at];
    the text is [full_text] when that key is present, and [text] only when
    it is absent. *)
Definition post_fields (item : value) (r : RawTweet) : Prop :=
  exists members post,
    item = JObject members /\
    dict_get (u "tweet") members = Some (JObject post) /\
    dict_get (u "id") post = Some (raw_id r) /\
    dict_get (u "created_at") post = Some (raw_created_at r) /\
    (dict_get (u "full_text") post = Some (raw_full_text r) \/
     (dict_get (u "full_text") post = None /\
      dict_get (u "text") post = Some (raw_full_text r))).

(** A row of the frame made from one extracted record. *)
Definition row_of (t : RawTweet) (r : Row) : Prop :=
  to_datetime_scalar (raw_created_at t) = Return (created_at r) /\
  id r = raw_id t /\ full_text r = raw_full_text t.


(** ** Archives and annotations used as examples *)

(** Two posts of 2018, in March and in June; the first has both text
    fields. *)
Definition spring_archive : str :=
  js "window.YTD.tweets.part0 = [
  {'tweet': {'id': '1', 'created_at': 'Wed Mar 14 20:19:24 +0000 2018',
             'full_text': 'hello Paris', 'text': 'hello'}},
  {'tweet': {'id': '2', 'created_at': 'Thu Jun 14 08:00:00 +0000 2018',
             'text': 'the , and'}}
];".

Definition spring_tweets : list RawTweet :=
  [mk_raw (JString (u "1")) (JString (u "Wed Mar 14 20:19:24 +0000 2018"))
          (JString (u "hello Paris"));
   mk_raw (JString (u "2")) (JString (u "Thu Jun 14 08:00:00 +0000 2018"))
          (JString (u "the , and"))].

Definition spring_frame : DataFrame :=
  [mk_row (JString (u "1")) (TS (mk_datetime 2018 3 14 20 19 24))
          (JString (u "hello Paris"));
   mk_row (JString (u "2")) (TS (mk_datetime 2018 6 14 8 0 0))
          (JString (u "the , and"))].

(** One post, in March 2018. *)
Definition march_archive : str :=
  js "window.YTD.tweets.part0 = [
  {'tweet': {'id': '1', 'created_at': 'Wed Mar 14 20:19:24 +0000 2018',
             'full_text': 'hello Paris'}}
]".

Definition march_frame : DataFrame :=
  [mk_row (JString (u "1")) (TS (mk_datetime 2018 3 14 20 19 24))
          (JString (u "hello Paris"))].

(** Three posts; the [created_at] of the second is not a date. *)
Definition one_bad_archive : str :=
  js "window.YTD.tweets.part0 = [
  {'tweet': {'id': '1', 'created_at': 'Wed Mar 14 20:19:24 +0000 2018',
             'full_text': 'one'}},
  {'tweet': {'id': '2', 'created_at': 'not a date', 'full_text': 'two'}},
  {'tweet': {'id': '3', 'created_at': 'Thu Jun 14 08:00:00 +0000 2018',
             'full_text': 'three'}}
]".

Definition one_bad_tweets : list RawTweet :=
  [mk_raw (JString (u "1")) (JString (u "Wed Mar 14 20:19:24 +0000 2018"))
          (JString (u "one"));
   mk_raw (JString (u "2")) (JString (u "not a date")) (JString (u "two"));
   mk_raw (JString (u "3")) (JString (u "Thu Jun 14 08:00:00 +0000 2018"))
          (JString (u "three"))].

(** Two posts; neither [created_at] is a date. *)
Definition all_bad_archive : str :=
  js "window.YTD.tweets.part0 = [
  {'tweet': {'id': '1', 'created_at': 'not a date', 'full_text': 'one'}},
  {'tweet': {'id': '2', 'created_at': 'yesterday', 'full_text': 'two'}}
]".

Definition all_bad_tweets : list RawTweet :=
  [mk_raw (JString (u "1")) (JString (u "not a date")) (JString (u "one"));
   mk_raw (JString (u "2")) (JString (u "yesterday")) (JString (u "two"))].

(** An archive without posts. *)
Definition empty_archive : str := js "window.YTD.tweets.part0 = []".

(** Two posts with the same id. *)
Definition repeated_id_archive : str :=
  js "window.YTD.tweets.part0 = [
  {'tweet': {'id': '7', 'created_at': 'Wed Mar 14 20:19:24 +0000 2018',
             'full_text': 'first'}},
  {'tweet': {'id': '7', 'created_at': 'Thu Jun 14 08:00:00 +0000 2018',
             'full_text': 'second'}}
]".

Definition repeated_id_tweets : list RawTweet :=
  [mk_raw (JString (u "7")) (JString (u "Wed Mar 14 20:19:24 +0000 2018"))
          (JString (u "first"));
   mk_raw (JString (u "7")) (JString (u "Thu Jun 14 08:00:00 +0000 2018"))
          (JString (u "second"))].

Definition repeated_id_frame : DataFrame :=
  [mk_row (JString (u "7")) (TS (mk_datetime 2018 3 14 20 19 24))
          (JString (u "first"));
   mk_row (JString (u "7")) (TS (mk_datetime 2018 6 14 8 0 0))
          (JString (u "second"))].

(** The annotations of three texts: two content words and a place; stop
    words and a comma; five entity mentions of three labels. *)
Definition doc_hello_paris : Doc :=
  mk_doc [mk_span (u "GPE")]
         [mk_token (u "hello") false false true;
          mk_token (u "Paris") false false true].

Definition doc_stop_words : Doc :=
  mk_doc []
         [mk_token (u "the") true false true;
          mk_token (u ",") false true false;
          mk_token (u "and") true false true].

Definition doc_five_mentions : Doc :=
  mk_doc [mk_span (u "ORG"); mk_span (u "GPE"); mk_span (u "ORG");
          mk_span (u "GPE"); mk_span (u "PERSON")]
         [mk_token (u "visit") false false true].

Definition example_annotations : list (str * Doc) :=
  [(u "hello Paris", doc_hello_paris);
   (u "the , and", doc_stop_words);
   (u "five mentions", doc_five_mentions)].

Definition mentions_frame : DataFrame :=
  [mk_row (JString (u "9")) (TS (mk_datetime 2020 1 5 10 0 0))
          (JString (u "five mentions"))].


(** ** Further notions used by the properties of the whole program *)


(** The keys the loader subscripts without a test. *)
Definition subscripted_keys : list str :=
  [u "tweet"; u "id"; u "created_at"; u "text"].

(** [c[k]] on a [Counter]: 0 for a key that is not there. *)
Definition count_of (k : str) (c : Counter) : nat :=
  match dict_get k c with
  | Some n => n
  | None => 0
  end.

(** [sum(c.values())] *)
Definition total (c : Counter) : nat := list_sum (map snd c).

(** A row whose [created_at] is a point in time, not [NaT]. *)
Definition has_timestamp (r : Row) : bool :=
  match created_at r with
  | TS _ => true
  | NaT => false
  end.

(** Strictly before, in the order of a sorted array of years: smaller
    years first, NaN after every year. *)
Definition year_lt (a b : option Z) : Prop :=
  match a, b with
  | Some x, Some y => (x < y)%Z
  | Some _, None => True
  | None, _ => False
  end.

(** The years a page has a header for, in the order of the page. *)
Definition page_years {Layout : Type} (page : list (element Layout))
  : list (option Z) :=
  flat_map (fun el => match el with
                      | Header_year y => [y]
                      | _ => []
                      end) page.

(** ** Further example archives *)

(** A document that is an object, not an array. *)
Definition object_archive : str := js "window.YTD.tweets.part0 = {'tweet': 1}".

(** Two posts of 2018; the [created_at] of the second is [null]. *)
Definition null_date_archive : str :=
  js "window.YTD.tweets.part0 = [
  {'tweet': {'id': '1', 'created_at': 'Wed Mar 14 20:19:24 +0000 2018',
             'full_text': 'hello Paris'}},
  {'tweet': {'id': '2', 'created_at': null, 'full_text': 'hello Paris'}}
]".

Definition null_date_frame : DataFrame :=
  [mk_row (JString (u "1")) (TS (mk_datetime 2018 3 14 20 19 24))
          (JString (u "hello Paris"));
   mk_row (JString (u "2")) NaT (JString (u "hello Paris"))].

(** A frame whose only text is made of stop words and a comma, and a
    frame whose text is a number. *)
Definition stop_words_frame : DataFrame :=
  [mk_row (JString (u "2")) (TS (mk_datetime 2018 6 14 8 0 0))
          (JString (u "the , and"))].

Definition number_text_frame : DataFrame :=
  [mk_row (JString (u "1")) (TS (mk_datetime 2018 3 14 20 19 24))
          (JString (u "hello Paris"));
   mk_row (JString (u "2")) (TS (mk_datetime 2018 6 14 8 0 0)) (JInt 5)].
(** * Properties *)

(** ** Strings, dicts and sequencing *)

Lemma str_eqb_eq (a b : str) : str_eqb a b = true <-> a = b.
Proof.
  revert b; induction a as [|x a IH]; intros [|y b]; simpl;
    try (split; [discriminate | discriminate]); try tauto.
  rewrite andb_true_iff, N.eqb_eq, IH. split.
  - intros [-> ->]; reflexivity.
  - intros H; inversion H; auto.
Qed.

Lemma str_eqb_refl (a : str) : str_eqb a a = true.
Proof. apply str_eqb_eq; reflexivity. Qed.

Lemma str_eqb_neq (a b : str) : str_eqb a b = false <-> a <> b.
Proof.
  rewrite <- str_eqb_eq. destruct (str_eqb a b); split; congruence.
Qed.



Lemma mapM_Forall2 {A B : Type} (f : A -> result B) (l : list A) (l' : list B) :
  mapM f l = Return l' <-> Forall2 (fun x y => f x = Return y) l l'.
Proof.
  revert l'; induction l as [|x l IH]; intros l'; simpl.
  - split; intros H; [injection H as <-; constructor | inversion H; reflexivity].
  - destruct (f x) as [y|e] eqn:Hx; simpl.
    + destruct (mapM f l) as [ys|e] eqn:Hl; simpl.
      * split; intros H.
        -- injection H as <-. constructor; [assumption|]. apply IH; reflexivity.
        -- inversion H as [|? ? ? ? Hy Hys]; subst.
           apply IH in Hys. congruence.
      * split; intros H; [discriminate|].
        inversion H as [|? ? ? ? Hy Hys]; subst.
        apply IH in Hys. discriminate.
    + split; intros H; [discriminate|].
      inversion H; subst; congruence.
Qed.

Lemma mapM_length {A B : Type} (f : A -> result B) (l : list A) (l' : list B) :
  mapM f l = Return l' -> length l' = length l.
Proof.
  intros H. apply mapM_Forall2 in H.
  induction H; simpl; congruence.
Qed.

(** The first element on which [f] raises decides what [mapM f] raises. *)
Lemma mapM_first_Raise {A B : Type} (f : A -> result B)
  (pre : list A) (x : A) (post : list A) (e : exn) :
  Forall (fun a => exists b, f a = Return b) pre ->
  f x = Raise e ->
  mapM f (pre ++ x :: post) = Raise e.
Proof.
  induction 1 as [|a pre [b Hb] _ IH]; intros Hx; simpl.
  - rewrite Hx. reflexivity.
  - rewrite Hb; simpl. rewrite (IH Hx). reflexivity.
Qed.

(** [mapM f] returns exactly when [f] returns on every element. *)
Lemma mapM_total {A B : Type} (f : A -> result B) (l : list A) :
  Forall (fun a => exists b, f a = Return b) l ->
  exists l', mapM f l = Return l'.
Proof.
  induction 1 as [|a l [b Hb] _ [l' IH]]; simpl.
  - eexists; reflexivity.
  - rewrite Hb, IH; simpl. eexists; reflexivity.
Qed.

Lemma loads_raises_JSONDecodeError (t : str) (e : exn) :
  Json.loads t = Raise e -> e = JSONDecodeError.
Proof.
  unfold Json.loads.
  destruct t as [|c t]; [|destruct (N.eq_dec c 65279) as [->|Hc]].
  - destruct (Json.decode []); congruence.
  - congruence.
  - assert (H : forall X (a b : X),
               match c with 65279%N => a | _ => b end = b).
    { intros X a b. destruct c as [|p]; [reflexivity|].
      do 16 (try (destruct p as [p|p|]; try reflexivity)).
      exfalso; apply Hc; reflexivity. }
    rewrite H. destruct (Json.decode (c :: t)); congruence.
Qed.

(** ** The loader *)



Lemma load_twitter_data_read (file_path content : str) :
  open_read file_path = Return content ->
  load_twitter_data file_path =
  (data <- read_payload content ;; tweets <- extract_tweets data ;;
   to_frame tweets).
Proof. intros H. unfold load_twitter_data. rewrite H. reflexivity. Qed.

Lemma to_datetime_rows (tweets : list RawTweet) (stamps : list Timestamp) :
  to_datetime (map raw_created_at tweets) = Return stamps ->
  Forall2 row_of tweets
    (map (fun p => mk_row (raw_id (fst p)) (snd p) (raw_full_text (fst p)))
         (combine tweets stamps)).
Proof.
  unfold to_datetime. intros H. apply mapM_Forall2 in H.
  revert stamps H. induction tweets as [|t tweets IH]; intros stamps H;
    inversion H as [|? s ? stamps' Hs Hrest]; subst; simpl; constructor.
  - repeat split; assumption.
  - apply IH; assumption.
Qed.

(** A frame that is returned has one row for each extracted record, in
    the order of the array. *)
Lemma to_frame_rows (tweets : list RawTweet) (df : DataFrame) :
  to_frame tweets = Return df -> Forall2 row_of tweets df.
Proof.
  destruct tweets as [|t tweets]; [discriminate|].
  unfold to_frame.
  destruct (to_datetime (map raw_created_at (t :: tweets))) as [stamps|e] eqn:H;
    cbn [bind]; [|discriminate].
  intros E; injection E as <-. apply (to_datetime_rows (t :: tweets)), H.
Qed.

(** The first cell the date parser refuses aborts the frame. *)
Lemma to_frame_first_refused (pre : list RawTweet) (t : RawTweet)
  (post : list RawTweet) (e : exn) :
  Forall (fun x => exists s, to_datetime_scalar (raw_created_at x) = Return s) pre ->
  to_datetime_scalar (raw_created_at t) = Raise e ->
  to_frame (pre ++ t :: post) = Raise e.
Proof.
  intros Hpre Ht.
  assert (H : to_datetime (map raw_created_at (pre ++ t :: post)) = Raise e).
  { unfold to_datetime. rewrite map_app; simpl.
    apply mapM_first_Raise; [|assumption].
    apply Forall_map. exact Hpre. }
  unfold to_frame. destruct (pre ++ t :: post) eqn:E.
  - destruct pre; discriminate.
  - rewrite H. reflexivity.
Qed.

Lemma extract_tweet_post_fields (item : value) (r : RawTweet) :
  post_fields item r -> extract_tweet item = Return r.
Proof.
  intros (members & post & -> & Htweet & Hid & Hcreated & Htext).
  unfold extract_tweet; simpl. rewrite Htweet; simpl.
  rewrite Hid; simpl. rewrite Hcreated; simpl.
  destruct r as [i c t]; simpl in *.
  destruct Htext as [Hfull | [Hfull Htext]]; rewrite Hfull; simpl.
  - reflexivity.
  - rewrite Htext. reflexivity.
Qed.

Lemma extract_tweet_fields (item : value) (r : RawTweet) :
  extract_tweet item = Return r -> post_fields item r.
Proof.
  unfold extract_tweet, post_fields.
  destruct item as [| | | | |items|members]; simpl; try discriminate.
  destruct (dict_get (u "tweet") members) as [post|] eqn:Htweet;
    simpl; [|discriminate].
  destruct post as [| | | | |items|post]; simpl; try discriminate.
  destruct (dict_get (u "id") post) as [i|] eqn:Hid; simpl; [|discriminate].
  destruct (dict_get (u "created_at") post) as [c|] eqn:Hc; simpl; [|discriminate].
  destruct (dict_get (u "full_text") post) as [f|] eqn:Hf; simpl.
  - intros E; injection E as <-. exists members, post. simpl. auto 10.
  - destruct (dict_get (u "text") post) as [t|] eqn:Ht; simpl; [|discriminate].
    intros E; injection E as <-. exists members, post. simpl. auto 10.
Qed.

Lemma extract_tweets_array (items : list value) (tweets : list RawTweet) :
  extract_tweets (JArray items) = Return tweets <->
  Forall2 post_fields items tweets.
Proof.
  unfold extract_tweets; simpl. rewrite mapM_Forall2.
  split; intros H; induction H; constructor; auto using
    extract_tweet_fields, extract_tweet_post_fields.
Qed.


(** C3 (amended).  No record is ever dropped.  When the date parser
    refuses the [created_at] of a record, [load_twitter_data] raises the
    exception of the first such record and returns no frame; when it
    returns a frame, the frame has one row for every element of the
    array, in order. *)
Theorem load_twitter_data_refused_timestamp
  (file_path content : str) (data : value) (tweets : list RawTweet) :
  open_read file_path = Return content ->
  read_payload content = Return data ->
  extract_tweets data = Return tweets ->
  (forall (pre : list RawTweet) (t : RawTweet) (post : list RawTweet) (e : exn),
      tweets = pre ++ t :: post ->
      Forall (fun x => exists s,
                  to_datetime_scalar (raw_created_at x) = Return s) pre ->
      to_datetime_scalar (raw_created_at t) = Raise e ->
      load_twitter_data file_path = Raise e) /\
  (forall df : DataFrame,
      load_twitter_data file_path = Return df ->
      Forall2 row_of tweets df /\ length df = length tweets).
Proof.
  intros Hread Hpayload Hextract.
  rewrite (load_twitter_data_read _ _ Hread), Hpayload; cbn [bind].
  rewrite Hextract; cbn [bind]. split.
  - intros pre t post e -> Hpre Ht. apply to_frame_first_refused; assumption.
  - intros df Hdf. apply to_frame_rows in Hdf. split; [assumption|].
    symmetry. eapply Forall2_length; eassumption.
Qed.

(** C4 (amended).  When the archive has records and the date parser
    refuses the [created_at] of every one of them, [load_twitter_data]
    raises the parser's exception for the first record and returns no
    frame; it does not raise an [EmptyArchiveError] of its own. *)
Theorem load_twitter_data_no_valid_record
  (file_path content : str) (data : value) (t : RawTweet)
  (rest : list RawTweet) :
  open_read file_path = Return content ->
  read_payload content = Return data ->
  extract_tweets data = Return (t :: rest) ->
  Forall (fun x => exists e,
              to_datetime_scalar (raw_created_at x) = Raise e) (t :: rest) ->
  exists e, to_datetime_scalar (raw_created_at t) = Raise e /\
            load_twitter_data file_path = Raise e.
Proof.
  intros Hread Hpayload Hextract Hall.
  rewrite (load_twitter_data_read _ _ Hread), Hpayload; cbn [bind].
  rewrite Hextract; cbn [bind].
  inversion Hall as [|? ? [e He] _]; subst.
  exists e. split; [assumption|].
  apply (to_frame_first_refused [] t rest e); [constructor | assumption].
Qed.

(** An archive without posts: the frame has no column to convert. *)
Lemma load_twitter_data_no_post (file_path content : str) (data : value) :
  open_read file_path = Return content ->
  read_payload content = Return data ->
  extract_tweets data = Return [] ->
  load_twitter_data file_path = Raise (KeyError (u "created_at")).
Proof.
  intros Hread Hpayload Hextract.
  rewrite (load_twitter_data_read _ _ Hread), Hpayload; cbn [bind].
  rewrite Hextract. reflexivity.
Qed.

(** C7.  For a payload that decodes to an array whose elements each hold
    a post under ["tweet"] with [id], [created_at] and a text, the loader
    extracts from every element exactly these three fields, in order; the
    text is [full_text] whenever it is present and [text] only when
    [full_text] is absent.  The frame is built from these records. *)
Theorem load_twitter_data_extracts_fields
  (file_path content : str) (items : list value) (tweets : list RawTweet) :
  open_read file_path = Return content ->
  read_payload content = Return (JArray items) ->
  Forall2 post_fields items tweets ->
  extract_tweets (JArray items) = Return tweets /\
  load_twitter_data file_path = to_frame tweets.
Proof.
  intros Hread Hpayload Hfields.
  apply extract_tweets_array in Hfields. split; [assumption|].
  rewrite (load_twitter_data_read _ _ Hread), Hpayload; cbn [bind].
  rewrite Hfields. reflexivity.
Qed.

(** C8 (amended).  The loader does not deduplicate: the frame it returns
    has one row for every element of the array, in order, so its [id]
    column is the sequence of the ids of the elements and an id that
    occurs several times in the archive occurs as often in the frame. *)
Theorem load_twitter_data_keeps_every_id
  (file_path content : str) (data : value) (tweets : list RawTweet)
  (df : DataFrame) :
  open_read file_path = Return content ->
  read_payload content = Return data ->
  extract_tweets data = Return tweets ->
  load_twitter_data file_path = Return df ->
  map id df = map raw_id tweets.
Proof.
  intros Hread Hpayload Hextract.
  rewrite (load_twitter_data_read _ _ Hread), Hpayload; cbn [bind].
  rewrite Hextract; cbn [bind]. intros Hdf.
  apply to_frame_rows in Hdf. clear Hextract.
  induction Hdf as [|t r tweets' df' (_ & Hid & _) _ IH]; simpl;
    [reflexivity | congruence].
Qed.

(** ** Dicts and counters *)

Lemma dict_get_set_same {V : Type} (k : str) (v : V) (d : list (str * V)) :
  dict_get k (dict_set k v d) = Some v.
Proof.
  induction d as [|[k' v'] d IH]; simpl.
  - rewrite str_eqb_refl. reflexivity.
  - destruct (str_eqb k k') eqn:E; simpl; rewrite E; auto.
Qed.

Lemma dict_get_set_other {V : Type} (k k' : str) (v : V) (d : list (str * V)) :
  k <> k' -> dict_get k' (dict_set k v d) = dict_get k' d.
Proof.
  intros Hne.
  assert (Hne' : str_eqb k' k = false) by (apply str_eqb_neq; congruence).
  induction d as [|[k0 v0] d IH]; simpl.
  - rewrite Hne'. reflexivity.
  - destruct (str_eqb k k0) eqn:E; simpl.
    + apply str_eqb_eq in E. subst k0. rewrite Hne'. reflexivity.
    + rewrite IH. reflexivity.
Qed.

Lemma dict_set_keys {V : Type} (k : str) (v : V) (d : list (str * V)) :
  map fst (dict_set k v d) =
  match dict_get k d with
  | Some _ => map fst d
  | None => map fst d ++ [k]
  end.
Proof.
  induction d as [|[k' v'] d IH]; simpl; [reflexivity|].
  destruct (str_eqb k k') eqn:E; simpl; [reflexivity|].
  rewrite IH. destruct (dict_get k d); reflexivity.
Qed.

Lemma dict_get_In {V : Type} (k : str) (v : V) (d : list (str * V)) :
  dict_get k d = Some v -> In (k, v) d.
Proof.
  induction d as [|[k' v'] d IH]; simpl; [discriminate|].
  destruct (str_eqb k k') eqn:E.
  - apply str_eqb_eq in E. subst k'. intros H; injection H as ->. auto.
  - auto.
Qed.

Lemma In_dict_get {V : Type} (k : str) (v : V) (d : list (str * V)) :
  NoDup (map fst d) -> In (k, v) d -> dict_get k d = Some v.
Proof.
  induction d as [|[k' v'] d IH]; simpl; [tauto|].
  intros Hnd [H|H]; inversion Hnd as [|? ? Hnotin Hnd']; subst.
  - injection H as -> ->. rewrite str_eqb_refl. reflexivity.
  - destruct (str_eqb k k') eqn:E; [|auto].
    apply str_eqb_eq in E. subst k'. exfalso. apply Hnotin.
    apply (in_map fst) in H. exact H.
Qed.

Lemma Counter_of_snoc (xs : list str) (x : str) :
  Counter_of (xs ++ [x]) = counter_add x (Counter_of xs).
Proof. unfold Counter_of. rewrite fold_left_app. reflexivity. Qed.

Lemma occurrences_snoc (a x : str) (xs : list str) :
  occurrences a (xs ++ [x]) =
  occurrences a xs + (if str_eqb x a then 1 else 0).
Proof.
  unfold occurrences. rewrite count_occ_app; simpl.
  destruct (str_eq_dec x a) as [->|Hne].
  - rewrite str_eqb_refl. reflexivity.
  - apply str_eqb_neq in Hne. rewrite Hne. reflexivity.
Qed.

Lemma occurrences_pos (a : str) (xs : list str) :
  In a xs <-> 0 < occurrences a xs.
Proof. unfold occurrences. apply count_occ_In. Qed.

(** A counter holds, for a label, the number of its occurrences, and
    nothing for a label that does not occur. *)
Lemma Counter_of_get (a : str) (xs : list str) :
  dict_get a (Counter_of xs) =
  match occurrences a xs with
  | O => None
  | S n => Some (S n)
  end.
Proof.
  induction xs as [|x xs IH] using rev_ind; [reflexivity|].
  rewrite Counter_of_snoc, occurrences_snoc. unfold counter_add.
  destruct (str_eqb x a) eqn:E.
  - apply str_eqb_eq in E. subst x. rewrite dict_get_set_same, IH.
    destruct (occurrences a xs); simpl; [reflexivity|].
    f_equal. lia.
  - apply str_eqb_neq in E. rewrite dict_get_set_other by assumption.
    rewrite IH, Nat.add_0_r. reflexivity.
Qed.

Lemma first_index_lt (a : str) (xs : list str) :
  In a xs -> first_index a xs < length xs.
Proof.
  induction xs as [|x xs IH]; simpl; [tauto|].
  intros H. destruct (str_eqb a x) eqn:E; [lia|].
  apply str_eqb_neq in E. destruct H as [H|H]; [congruence|].
  apply IH in H. lia.
Qed.

Lemma first_index_app (a : str) (xs ys : list str) :
  In a xs -> first_index a (xs ++ ys) = first_index a xs.
Proof.
  induction xs as [|x xs IH]; simpl; [tauto|].
  intros H. destruct (str_eqb a x) eqn:E; [reflexivity|].
  apply str_eqb_neq in E. destruct H as [H|H]; [congruence|].
  rewrite IH by assumption. reflexivity.
Qed.

Lemma first_index_new (a : str) (xs : list str) :
  ~ In a xs -> first_index a (xs ++ [a]) = length xs.
Proof.
  induction xs as [|x xs IH]; simpl; intros H.
  - rewrite str_eqb_refl. reflexivity.
  - destruct (str_eqb a x) eqn:E.
    + apply str_eqb_eq in E. subst x. tauto.
    + rewrite IH by tauto. reflexivity.
Qed.

Lemma StronglySorted_snoc {A : Type} (R : A -> A -> Prop) (l : list A) (x : A) :
  StronglySorted R l -> Forall (fun a => R a x) l ->
  StronglySorted R (l ++ [x]).
Proof.
  induction 1 as [|a l Hs IH Ha]; intros Hx; simpl.
  - repeat constructor.
  - inversion Hx; subst. constructor; [auto|].
    apply Forall_app. split; [assumption | constructor; auto].
Qed.

Lemma StronglySorted_weaken {A : Type} (R R' : A -> A -> Prop) (l : list A) :
  (forall a b, In a l -> In b l -> R a b -> R' a b) ->
  StronglySorted R l -> StronglySorted R' l.
Proof.
  intros H Hs. induction Hs as [|a l Hs IH Ha]; constructor.
  - apply IH. intros; apply H; simpl; auto.
  - rewrite Forall_forall in *. intros b Hb. apply H; simpl; auto.
Qed.

(** The keys of a counter are the distinct labels, in the order in which
    each was first seen. *)
Lemma Counter_of_keys (xs : list str) :
  let keys := map fst (Counter_of xs) in
  NoDup keys /\
  (forall a, In a keys <-> In a xs) /\
  StronglySorted (fun a b => first_index a xs < first_index b xs) keys.
Proof.
  induction xs as [|x xs (Hnd & Hin & Hsorted)] using rev_ind; simpl.
  - split; [constructor | split; [tauto | constructor]].
  - rewrite Counter_of_snoc. unfold counter_add. rewrite dict_set_keys.
    pose proof (Counter_of_get x xs) as Hget.
    pose proof (occurrences_pos x xs) as Hpos.
    destruct (occurrences x xs) as [|n] eqn:Hocc; rewrite Hget.
    + assert (Hx : ~ In x xs) by (intros H; apply Hpos in H; lia).
      split; [|split].
      * apply NoDup_app; [assumption | repeat constructor; simpl; tauto |].
        intros a Ha [<-|[]]. apply Hx, Hin, Ha.
      * intros a. rewrite !in_app_iff, Hin. tauto.
      * apply StronglySorted_snoc.
        -- eapply StronglySorted_weaken; [|exact Hsorted].
           intros a b Ha Hb Hab. apply Hin in Ha, Hb.
           rewrite !first_index_app by assumption. exact Hab.
        -- apply Forall_forall. intros a Ha. apply Hin in Ha.
           rewrite first_index_app, first_index_new by assumption.
           apply first_index_lt, Ha.
    + assert (Hx : In x xs) by (apply Hpos; lia).
      split; [assumption | split].
      * intros a. rewrite in_app_iff, Hin. simpl.
        split; [tauto | intros [H|[<-|[]]]; tauto].
      * eapply StronglySorted_weaken; [|exact Hsorted].
        intros a b Ha Hb Hab. apply Hin in Ha, Hb.
        rewrite !first_index_app by assumption. exact Hab.
Qed.

(** The entries of a counter: every label that occurs, with the number of
    its occurrences. *)
Lemma Counter_of_In (a : str) (n : nat) (xs : list str) :
  In (a, n) (Counter_of xs) <-> In a xs /\ n = occurrences a xs.
Proof.
  destruct (Counter_of_keys xs) as (Hnd & Hin & _).
  pose proof (Counter_of_get a xs) as Hget.
  pose proof (occurrences_pos a xs) as Hpos.
  split.
  - intros H. pose proof (In_dict_get _ _ _ Hnd H) as Hd.
    rewrite Hget in Hd. destruct (occurrences a xs); [discriminate|].
    injection Hd as <-. split; [apply Hpos; lia | reflexivity].
  - intros [Ha ->]. apply dict_get_In. rewrite Hget.
    apply Hpos in Ha. destruct (occurrences a xs); [lia | reflexivity].
Qed.

Lemma Counter_of_length (xs : list str) :
  length (Counter_of xs) = length (nodup str_eq_dec xs).
Proof.
  destruct (Counter_of_keys xs) as (Hnd & Hin & _).
  rewrite <- (length_map fst). apply Permutation_length.
  apply NoDup_Permutation; [assumption | apply NoDup_nodup |].
  intros a. rewrite Hin, nodup_In. tauto.
Qed.

(** ** The stable descending sort behind [most_common] *)

Lemma insert_desc_perm (x : str * nat) (l : list (str * nat)) :
  Permutation (insert_desc x l) (x :: l).
Proof.
  induction l as [|y l IH]; simpl; [reflexivity|].
  destruct (snd x <? snd y); [|reflexivity].
  rewrite IH. apply perm_swap.
Qed.

Lemma sorted_desc_perm (l : list (str * nat)) : Permutation (sorted_desc l) l.
Proof.
  induction l as [|x l IH]; simpl; [reflexivity|].
  rewrite insert_desc_perm. constructor. exact IH.
Qed.

Lemma ranked_before_le (rank : str * nat -> nat) (x y : str * nat) :
  ranked_before rank x y -> snd y <= snd x.
Proof. unfold ranked_before. lia. Qed.

Lemma insert_desc_sorted (rank : str * nat -> nat) (x : str * nat)
  (s : list (str * nat)) :
  StronglySorted (ranked_before rank) s ->
  Forall (fun y => rank x < rank y) s ->
  StronglySorted (ranked_before rank) (insert_desc x s).
Proof.
  induction 1 as [|y s Hs IH Hy]; intros Hx; simpl.
  - repeat constructor.
  - inversion Hx as [|? ? Hxy Hxs]; subst.
    destruct (Nat.ltb_spec (snd x) (snd y)) as [Hlt|Hge].
    + constructor; [auto|].
      apply (Permutation_Forall (Permutation_sym (insert_desc_perm x s))).
      constructor; [left; exact Hlt | exact Hy].
    + constructor; [constructor; assumption|].
      rewrite Forall_forall in *. intros z [<-|Hz].
      * unfold ranked_before. lia.
      * pose proof (ranked_before_le _ _ _ (Hy z Hz)).
        pose proof (Hxs z Hz). unfold ranked_before. lia.
Qed.

(** Sorting a list whose items come in increasing rank gives a list in
    the order of [ranked_before]: the sort is stable. *)
Lemma sorted_desc_sorted (rank : str * nat -> nat) (l : list (str * nat)) :
  StronglySorted (fun x y => rank x < rank y) l ->
  StronglySorted (ranked_before rank) (sorted_desc l).
Proof.
  induction 1 as [|x l Hs IH Hx]; simpl; [constructor|].
  apply insert_desc_sorted; [assumption|].
  apply (Permutation_Forall (Permutation_sym (sorted_desc_perm l))), Hx.
Qed.

Lemma StronglySorted_app_inv {A : Type} (R : A -> A -> Prop) (l1 l2 : list A) :
  StronglySorted R (l1 ++ l2) ->
  StronglySorted R l1 /\
  (forall x y, In x l1 -> In y l2 -> R x y).
Proof.
  induction l1 as [|a l1 IH]; simpl; intros H.
  - split; [constructor | tauto].
  - inversion H as [|? ? Hs Ha]; subst. destruct (IH Hs) as [Hs1 Hcross].
    rewrite Forall_app in Ha. destruct Ha as [Ha1 Ha2].
    split; [constructor; assumption|].
    intros x y [<-|Hx] Hy; [|auto].
    rewrite Forall_forall in Ha2. auto.
Qed.

Lemma StronglySorted_nth {A : Type} (R : A -> A -> Prop) (l : list A)
  (i j : nat) (a b : A) :
  StronglySorted R l -> i < j ->
  nth_error l i = Some a -> nth_error l j = Some b -> R a b.
Proof.
  intros Hs. revert i j. induction Hs as [|x l Hs IH Hx]; intros i j Hij Hi Hj.
  - destruct i; discriminate.
  - destruct j as [|j]; [lia|]. simpl in Hj. destruct i as [|i]; simpl in Hi.
    + injection Hi as <-. rewrite Forall_forall in Hx.
      apply Hx. eapply nth_error_In; eassumption.
    + apply (IH i j); [lia | assumption | assumption].
Qed.

Lemma StronglySorted_map_fst (R : str -> str -> Prop) (l : list (str * nat)) :
  StronglySorted R (map fst l) ->
  StronglySorted (fun x y => R (fst x) (fst y)) l.
Proof.
  induction l as [|x l IH]; simpl; intros H; [constructor|].
  inversion H as [|? ? Hs Hx]; subst. constructor; [auto|].
  rewrite Forall_forall in *. intros y Hy. apply Hx. apply in_map, Hy.
Qed.

(** [most_common n] of a counter: its length, its entries, their order,
    and the entries it leaves out. *)
Lemma most_common_Counter_of (n : nat) (labels : list str) :
  let top := most_common n (Counter_of labels) in
  length top = Nat.min n (length (nodup str_eq_dec labels)) /\
  (forall a k, In (a, k) top -> In a labels /\ k = occurrences a labels) /\
  StronglySorted (ranked_before (first_seen labels)) top /\
  (forall a k b, In (a, k) top -> In b labels -> ~ In b (map fst top) ->
                 occurrences b labels <= k).
Proof.
  unfold most_common.
  pose proof (sorted_desc_perm (Counter_of labels)) as Hperm.
  destruct (Counter_of_keys labels) as (_ & _ & Hkeys).
  apply StronglySorted_map_fst in Hkeys.
  apply (sorted_desc_sorted (first_seen labels)) in Hkeys.
  rewrite <- (firstn_skipn n (sorted_desc (Counter_of labels))) in Hkeys.
  apply StronglySorted_app_inv in Hkeys. destruct Hkeys as [Htop Hcross].
  assert (Hin : forall x, In x (firstn n (sorted_desc (Counter_of labels)))
                          -> In x (Counter_of labels)).
  { intros x Hx. apply (Permutation_in _ Hperm).
    rewrite <- (firstn_skipn n). apply in_or_app. left. exact Hx. }
  split; [|split; [|split]].
  - rewrite length_firstn, (Permutation_length Hperm), Counter_of_length.
    reflexivity.
  - intros a k Ha. apply Counter_of_In, Hin, Ha.
  - exact Htop.
  - intros a k b Ha Hb Hnot.
    assert (Hb' : In (b, occurrences b labels) (Counter_of labels))
      by (apply Counter_of_In; auto).
    apply (Permutation_in _ (Permutation_sym Hperm)) in Hb'.
    rewrite <- (firstn_skipn n) in Hb'. apply in_app_or in Hb'.
    destruct Hb' as [Hb'|Hb'].
    + exfalso. apply Hnot. apply (in_map fst) in Hb'. exact Hb'.
    + apply (ranked_before_le _ _ _ (Hcross _ _ Ha Hb')).
Qed.

(** ** The linguistic extractor *)

Lemma keep_token_flagged (t : Token) : keep_token t = false <-> flagged t.
Proof.
  unfold keep_token, flagged.
  destruct (is_stop t), (is_punct t), (is_alpha t); simpl; intuition congruence.
Qed.

Lemma keep_token_flags (t : Token) :
  keep_token t = true <->
  is_stop t = false /\ is_punct t = false /\ is_alpha t = true.
Proof.
  unfold keep_token.
  destruct (is_stop t), (is_punct t), (is_alpha t); simpl; intuition congruence.
Qed.

Lemma content_lemmas_app (d1 d2 : list Doc) :
  content_lemmas (d1 ++ d2) = content_lemmas d1 ++ content_lemmas d2.
Proof. unfold content_lemmas. apply flat_map_app. Qed.

Lemma content_lemmas_In (l : str) (docs : list Doc) :
  In l (content_lemmas docs) <->
  exists doc t, In doc docs /\ In t (tokens doc) /\ lemma_ t = l /\
                keep_token t = true.
Proof.
  unfold content_lemmas. rewrite in_flat_map. split.
  - intros (doc & Hdoc & Hl). apply in_map_iff in Hl.
    destruct Hl as (t & <- & Ht). apply filter_In in Ht.
    exists doc, t. tauto.
  - intros (doc & t & Hdoc & Ht & <- & Hkeep). exists doc. split; [assumption|].
    apply in_map, filter_In. auto.
Qed.

(** The occurrences of a lemma among the content lemmas are the kept
    tokens that have this lemma. *)
Lemma content_lemmas_occurrences (l : str) (docs : list Doc) :
  occurrences l (content_lemmas docs) =
  length (filter (fun t => keep_token t && str_eqb (lemma_ t) l)
                 (flat_map tokens docs)).
Proof.
  unfold content_lemmas, occurrences.
  induction docs as [|doc docs IH]; simpl; [reflexivity|].
  rewrite count_occ_app, filter_app, length_app, IH. f_equal.
  induction (tokens doc) as [|t ts IHt]; simpl; [reflexivity|].
  destruct (keep_token t); simpl; [|exact IHt].
  destruct (str_eq_dec (lemma_ t) l) as [E|E].
  - apply str_eqb_eq in E. rewrite E. simpl. f_equal. exact IHt.
  - apply str_eqb_neq in E. rewrite E. exact IHt.
Qed.

Lemma content_lemmas_flagged (doc : Doc) :
  Forall flagged (tokens doc) -> content_lemmas [doc] = [].
Proof.
  unfold content_lemmas; simpl. rewrite app_nil_r. intros H.
  induction H as [|t ts Ht _ IH]; simpl; [reflexivity|].
  apply keep_token_flagged in Ht. rewrite Ht. exact IH.
Qed.

Lemma analyze_self_expression_docs (tweets : list value) (docs : list Doc) :
  nlp_pipe tweets = Return docs ->
  analyze_self_expression tweets =
  Return (Counter_of (entity_labels docs), Counter_of (content_lemmas docs)).
Proof. intros H. unfold analyze_self_expression. rewrite H. reflexivity. Qed.

(** C5.  Whenever the batch is annotated, [analyze_self_expression]
    returns, and its lemma table counts no token flagged as a stop word,
    flagged as punctuation or not flagged as alphabetic: the count of a
    lemma is the number of unflagged tokens with that lemma, and every
    entry comes from such a token.  A text whose tokens are all flagged
    contributes nothing to the table, and alone it gives the empty table. *)
Theorem analyze_self_expression_lemma_filter
  (tweets : list value) (docs : list Doc) :
  nlp_pipe tweets = Return docs ->
  exists entities_count lemmas_count : Counter,
    analyze_self_expression tweets = Return (entities_count, lemmas_count) /\
    (forall l n, In (l, n) lemmas_count ->
       n = length (filter (fun t => keep_token t && str_eqb (lemma_ t) l)
                          (flat_map tokens docs)) /\
       exists doc t, In doc docs /\ In t (tokens doc) /\ lemma_ t = l /\
                     is_stop t = false /\ is_punct t = false /\
                     is_alpha t = true) /\
    (forall d1 doc d2, docs = d1 ++ doc :: d2 ->
       Forall flagged (tokens doc) ->
       lemmas_count = Counter_of (content_lemmas (d1 ++ d2))) /\
    (forall doc, docs = [doc] -> Forall flagged (tokens doc) ->
       lemmas_count = []).
Proof.
  intros Hdocs. eexists _, _. split; [apply analyze_self_expression_docs, Hdocs|].
  split; [|split].
  - intros l n Hin. apply Counter_of_In in Hin. destruct Hin as [Hl ->].
    split; [apply content_lemmas_occurrences|].
    apply content_lemmas_In in Hl. destruct Hl as (doc & t & Hdoc & Ht & Hlem & Hkeep).
    apply keep_token_flags in Hkeep. exists doc, t. tauto.
  - intros d1 doc d2 -> Hflagged.
    change (doc :: d2) with ([doc] ++ d2).
    rewrite !content_lemmas_app, (content_lemmas_flagged doc Hflagged).
    reflexivity.
  - intros doc -> Hflagged. rewrite (content_lemmas_flagged doc Hflagged).
    reflexivity.
Qed.

(** C10.  On an empty batch [analyze_self_expression] returns two empty
    tables and raises nothing. *)
Theorem analyze_self_expression_empty_batch :
  analyze_self_expression [] = Return ([], []).
Proof.
  unfold analyze_self_expression, nlp_pipe. cbn [mapM bind].
  unfold entity_labels, content_lemmas, Counter_of. reflexivity.
Qed.

(** ** The analysis of a year *)

Lemma analyze_year_docs (seed : N) (df_year : DataFrame) (docs : list Doc) :
  nlp_pipe (map full_text df_year) = Return docs ->
  analyze_year seed df_year =
  (wordcloud_fig <- generate_wordcloud seed (Counter_of (content_lemmas docs)) ;;
   Return (resample_M_size (map created_at df_year),
           most_common 10 (Counter_of (entity_labels docs)),
           wordcloud_fig)).
Proof.
  intros H. unfold analyze_year.
  rewrite (analyze_self_expression_docs _ _ H). reflexivity.
Qed.

(** [analyze_year] returns when the texts are annotated and the renderer
    accepts the lemma table. *)
Lemma analyze_year_returns (seed : N) (df_year : DataFrame) (docs : list Doc) :
  nlp_pipe (map full_text df_year) = Return docs ->
  wordcloud_refuses (Counter_of (content_lemmas docs)) = None ->
  analyze_year seed df_year =
  Return (resample_M_size (map created_at df_year),
          most_common 10 (Counter_of (entity_labels docs)),
          mk_figure (Counter_of (content_lemmas docs))
                    (wordcloud_layout seed (Counter_of (content_lemmas docs)))).
Proof.
  intros H Hdraw. rewrite (analyze_year_docs _ _ _ H).
  unfold generate_wordcloud. rewrite Hdraw. reflexivity.
Qed.

Lemma analyze_year_inv (seed : N) (df_year : DataFrame)
  (tweet_counts : list ((Z * Z) * nat)) (top_entities : list (str * nat))
  (wordcloud_fig : Figure Layout) :
  analyze_year seed df_year = Return (tweet_counts, top_entities, wordcloud_fig) ->
  exists docs,
    nlp_pipe (map full_text df_year) = Return docs /\
    tweet_counts = resample_M_size (map created_at df_year) /\
    top_entities = most_common 10 (Counter_of (entity_labels docs)) /\
    drawn_from wordcloud_fig = Counter_of (content_lemmas docs).
Proof.
  destruct (nlp_pipe (map full_text df_year)) as [docs|e] eqn:Hdocs.
  - rewrite (analyze_year_docs _ _ _ Hdocs). unfold generate_wordcloud.
    destruct (wordcloud_refuses _); cbn [bind]; [discriminate|].
    intros H; injection H as <- <- <-. exists docs. auto.
  - unfold analyze_year, analyze_self_expression. rewrite Hdocs. discriminate.
Qed.

(** C6.  The [top_entities] that [analyze_year] returns has
    [min(10, number of distinct entity labels)] entries, each a label of
    the year with the number of its mentions; it is sorted by descending
    count, and of two entries with the same count the one whose label was
    seen first comes first.  Every label it leaves out has no more
    mentions than any entry it holds. *)
Theorem analyze_year_top_entities (seed : N) (df_year : DataFrame)
  (docs : list Doc) (tweet_counts : list ((Z * Z) * nat))
  (top_entities : list (str * nat)) (wordcloud_fig : Figure Layout) :
  nlp_pipe (map full_text df_year) = Return docs ->
  analyze_year seed df_year = Return (tweet_counts, top_entities, wordcloud_fig) ->
  let labels := entity_labels docs in
  length top_entities = Nat.min 10 (length (nodup str_eq_dec labels)) /\
  (forall a n, In (a, n) top_entities ->
               In a labels /\ n = occurrences a labels) /\
  (forall i j a n b m, i < j ->
     nth_error top_entities i = Some (a, n) ->
     nth_error top_entities j = Some (b, m) ->
     m <= n /\ (m = n -> first_index a labels < first_index b labels)) /\
  (forall a n b, In (a, n) top_entities -> In b labels ->
                 ~ In b (map fst top_entities) -> occurrences b labels <= n).
Proof.
  intros Hdocs Hyear labels.
  apply analyze_year_inv in Hyear. destruct Hyear as (docs' & Hdocs' & _ & -> & _).
  rewrite Hdocs in Hdocs'. injection Hdocs' as <-.
  destruct (most_common_Counter_of 10 labels) as (Hlen & Hin & Hsorted & Hout).
  split; [exact Hlen | split; [exact Hin | split; [|exact Hout]]].
  intros i j a n b m Hij Hi Hj.
  pose proof (StronglySorted_nth _ _ _ _ _ _ Hsorted Hij Hi Hj) as H.
  unfold ranked_before, first_seen in H. simpl in H. lia.
Qed.

(** ** Monthly counts *)

Lemma fold_left_min_spec (ks : list Z) (k : Z) :
  In (fold_left Z.min ks k) (k :: ks) /\
  Forall (fun x => (fold_left Z.min ks k <= x)%Z) (k :: ks).
Proof.
  revert k. induction ks as [|x ks IH]; intros k; simpl.
  - split; [auto | repeat constructor; lia].
  - destruct (IH (Z.min k x)) as [Hin Hall].
    inversion Hall as [|? ? Hhead Htail]; subst. split.
    + destruct Hin as [Hin|Hin]; [|auto].
      rewrite <- Hin. destruct (Z.min_spec k x) as [[_ ->]|[_ ->]]; auto.
    + constructor; [lia|]. constructor; [lia | exact Htail].
Qed.

Lemma fold_left_max_spec (ks : list Z) (k : Z) :
  In (fold_left Z.max ks k) (k :: ks) /\
  Forall (fun x => (x <= fold_left Z.max ks k)%Z) (k :: ks).
Proof.
  revert k. induction ks as [|x ks IH]; intros k; simpl.
  - split; [auto | repeat constructor; lia].
  - destruct (IH (Z.max k x)) as [Hin Hall].
    inversion Hall as [|? ? Hhead Htail]; subst. split.
    + destruct Hin as [Hin|Hin]; [|auto].
      rewrite <- Hin. destruct (Z.max_spec k x) as [[_ ->]|[_ ->]]; auto.
    + constructor; [lia|]. constructor; [lia | exact Htail].
Qed.

Lemma month_of_index_in_year (y m : Z) :
  (1 <= m <= 12)%Z -> month_of_index (y * 12 + (m - 1)) = (y, m).
Proof.
  intros Hm. unfold month_of_index. f_equal.
  - symmetry. apply (Z.div_unique _ _ _ (m - 1)%Z); lia.
  - assert (E : ((y * 12 + (m - 1)) mod 12 = m - 1)%Z)
      by (symmetry; apply (Z.mod_unique _ _ y); lia).
    rewrite E. lia.
Qed.

(** In a frame of one year, the month indices are those of the rows. *)
Lemma month_indices_in_year (y : Z) (df : DataFrame) :
  Forall (in_year y) df ->
  Forall (fun k => exists m, (1 <= m <= 12)%Z /\ k = (y * 12 + (m - 1))%Z /\
                             rows_in_month df m <> 0)
         (month_indices (map created_at df)) /\
  (forall m, count_occ Z.eq_dec (month_indices (map created_at df))
                       (y * 12 + (m - 1))%Z = rows_in_month df m) /\
  length (month_indices (map created_at df)) = length df.
Proof.
  unfold rows_in_month.
  induction 1 as [|r df (d & Hd & Hy & Hm) _ (IHall & IHcount & IHlen)]; simpl.
  - split; [constructor | split; [reflexivity | reflexivity]].
  - rewrite Hd; simpl. unfold month_index. rewrite Hy. split; [|split].
    + constructor.
      * exists (month d). rewrite Z.eqb_refl. simpl. split; [lia | split; [reflexivity | lia]].
      * eapply Forall_impl; [|exact IHall].
        intros k (m & Hm1 & Hk & Hrows). exists m. split; [assumption|].
        split; [assumption|]. destruct (month d =? m)%Z; simpl; lia.
    + intros m. rewrite IHcount.
      destruct (Z.eq_dec (y * 12 + (month d - 1)) (y * 12 + (m - 1))) as [E|E];
        destruct (Z.eqb_spec (month d) m); simpl; try reflexivity; lia.
    + rewrite IHlen. reflexivity.
Qed.

(** The monthly counts of a year's frame run from the first month that
    has a row to the last month that has one. *)
Lemma resample_M_size_in_year (y : Z) (df : DataFrame) :
  df <> [] -> Forall (in_year y) df ->
  exists first last : Z,
    (1 <= first <= last)%Z /\ (last <= 12)%Z /\
    rows_in_month df first <> 0 /\ rows_in_month df last <> 0 /\
    (forall m, (m < first \/ last < m)%Z -> rows_in_month df m = 0) /\
    resample_M_size (map created_at df) =
    map (fun m => ((y, m), rows_in_month df m)) (months_from first last).
Proof.
  intros Hne Hyear.
  destruct (month_indices_in_year y df Hyear) as (Hall & Hcount & Hlen).
  unfold resample_M_size.
  destruct (month_indices (map created_at df)) as [|k ks] eqn:Hks.
  { destruct df; [congruence | discriminate]. }
  destruct (fold_left_min_spec ks k) as [Hlo_in Hlo].
  destruct (fold_left_max_spec ks k) as [Hhi_in Hhi].
  set (lo := fold_left Z.min ks k) in *. set (hi := fold_left Z.max ks k) in *.
  rewrite Forall_forall in Hall, Hlo, Hhi.
  destruct (Hall _ Hlo_in) as (first & Hfirst & Elo & Hrows_first).
  destruct (Hall _ Hhi_in) as (last & Hlast & Ehi & Hrows_last).
  pose proof (Hlo _ Hhi_in) as Hlohi.
  exists first, last.
  split; [lia | split; [lia | split; [assumption | split; [assumption | split]]]].
  - intros m Hm. rewrite <- Hcount.
    apply count_occ_not_In. intros Hin.
    pose proof (Hlo _ Hin). pose proof (Hhi _ Hin). lia.
  - unfold months_from. rewrite map_map.
    replace (hi - lo + 1)%Z with (last - first + 1)%Z by lia.
    apply map_ext_in. intros i Hi. apply in_seq in Hi.
    replace (lo + Z.of_nat i)%Z with (y * 12 + (first + Z.of_nat i - 1))%Z by lia.
    rewrite month_of_index_in_year by lia.
    rewrite Hcount. reflexivity.
Qed.

(** C1 (amended).  For a year that has at least one record, the
    [tweet_counts] that [analyze_year] returns has one entry for every
    month from the first month that has a record to the last month that
    has one, in order, each with the number of records of that month, 0
    for a month in between without records.  Months before the first
    record and after the last are left out, so the series has
    [last - first + 1] entries, between 1 and 12. *)
Theorem analyze_year_tweet_counts (seed : N) (y : Z) (df_year : DataFrame)
  (tweet_counts : list ((Z * Z) * nat)) (top_entities : list (str * nat))
  (wordcloud_fig : Figure Layout) :
  df_year <> [] ->
  Forall (in_year y) df_year ->
  analyze_year seed df_year = Return (tweet_counts, top_entities, wordcloud_fig) ->
  exists first last : Z,
    (1 <= first <= last)%Z /\ (last <= 12)%Z /\
    rows_in_month df_year first <> 0 /\ rows_in_month df_year last <> 0 /\
    (forall m, (m < first \/ last < m)%Z -> rows_in_month df_year m = 0) /\
    tweet_counts =
      map (fun m => ((y, m), rows_in_month df_year m)) (months_from first last) /\
    length tweet_counts = Z.to_nat (last - first + 1).
Proof.
  intros Hne Hyear Hreturn.
  apply analyze_year_inv in Hreturn. destruct Hreturn as (_ & _ & -> & _).
  destruct (resample_M_size_in_year y df_year Hne Hyear)
    as (first & last & H1 & H2 & H3 & H4 & H5 & H6).
  exists first, last. repeat (split; [assumption|]).
  rewrite H6. unfold months_from. rewrite !length_map, length_seq. reflexivity.
Qed.

(** ** The years of a frame *)

Lemma year_same_eq (a b : option Z) : year_same a b = true <-> a = b.
Proof.
  destruct a as [x|], b as [y|]; simpl; try (split; congruence).
  rewrite Z.eqb_eq. split; congruence.
Qed.

Lemma unique_In (x : option Z) (l : list (option Z)) :
  In x (unique l) <-> In x l.
Proof.
  induction l as [|a l IH]; simpl; [reflexivity|].
  rewrite filter_In, IH. split.
  - intros [H|[H _]]; [left | right]; assumption.
  - intros [H|H]; [left; assumption|].
    destruct (year_same a x) eqn:E.
    + left. apply year_same_eq, E.
    + right. split; [assumption | reflexivity].
Qed.

Lemma insert_year_perm (x : option Z) (l : list (option Z)) :
  Permutation (insert_year x l) (x :: l).
Proof.
  induction l as [|y l IH]; simpl; [reflexivity|].
  destruct (year_leb x y); [reflexivity|].
  rewrite IH. apply perm_swap.
Qed.

Lemma sort_years_perm (l : list (option Z)) : Permutation (sort_years l) l.
Proof.
  induction l as [|x l IH]; simpl; [reflexivity|].
  rewrite insert_year_perm. constructor. exact IH.
Qed.

(** The years [main] loops over are the years of the rows. *)
Lemma years_of_In (df : DataFrame) (y : option Z) :
  In y (years_of df) <-> exists r, In r df /\ dt_year (created_at r) = y.
Proof.
  unfold years_of. split.
  - intros H. apply (Permutation_in _ (sort_years_perm _)) in H.
    apply unique_In, in_map_iff in H. destruct H as (r & Hr & Hin).
    exists r. split; assumption.
  - intros (r & Hin & Hr).
    apply (Permutation_in _ (Permutation_sym (sort_years_perm _))).
    apply unique_In, in_map_iff. exists r. split; assumption.
Qed.

(** Each frame [main] hands to [analyze_year] for a year holds the rows
    of that year, and at least one. *)
Lemma select_year_rows (df : DataFrame) (y : Z) :
  In (Some y) (years_of df) ->
  Forall (fun r => forall d, created_at r = TS d -> (1 <= month d <= 12)%Z) df ->
  select_year df (Some y) <> [] /\ Forall (in_year y) (select_year df (Some y)).
Proof.
  intros Hy Hvalid. split.
  - apply years_of_In in Hy. destruct Hy as (r & Hin & Hr).
    assert (H : In r (select_year df (Some y))).
    { apply filter_In. split; [assumption|].
      rewrite Hr. simpl. apply Z.eqb_refl. }
    intros E. rewrite E in H. exact H.
  - apply Forall_forall. intros r Hr. apply filter_In in Hr.
    destruct Hr as [Hin Hsame]. rewrite Forall_forall in Hvalid.
    destruct (created_at r) as [|d] eqn:Hd; simpl in Hsame; [discriminate|].
    exists d. split; [exact Hd|]. split.
    + apply Z.eqb_eq, Hsame.
    + apply (Hvalid r Hin d Hd).
Qed.

(** ** The JSON decoder never runs out of fuel *)

Ltac break_match_in H :=
  match type of H with
  | context [match ?x with _ => _ end] => destruct x eqn:?
  end.

Lemma skip_ws_length (s : str) : length (Json.skip_ws s) <= length s.
Proof.
  induction s as [|c s IH]; simpl; [lia|].
  destruct (Json.is_ws c); simpl; lia.
Qed.

Lemma skip_ws_cons (s : str) (c : char) (r : str) :
  Json.skip_ws s = c :: r -> length r < length s.
Proof.
  intros H. pose proof (skip_ws_length s) as Hlen. rewrite H in Hlen.
  simpl in Hlen. lia.
Qed.

Lemma scan_string_shorter (n : nat) :
  forall (s acc t r : str),
    length s <= n -> Json.scan_string s acc = Some (t, r) ->
    length r < length s.
Proof.
  induction n as [|n IH]; intros s acc t r Hn H.
  - destruct s; [discriminate | simpl in Hn; lia].
  - destruct s as [|c s1]; [discriminate|]. cbn [Json.scan_string] in H.
    simpl in Hn.
    repeat (break_match_in H; try discriminate; subst);
      try (injection H as <- <-; simpl; lia);
      apply IH in H; simpl in *; lia.
Qed.

Lemma strip_prefix_length (p s r : str) :
  Json.strip_prefix p s = Some r -> length r + length p = length s.
Proof.
  revert s. induction p as [|a p IH]; intros [|b s]; simpl; intros H;
    try discriminate; try (injection H as <-; simpl; lia).
  destruct (N.eqb a b); [|discriminate]. apply IH in H. lia.
Qed.

Lemma span_digits_length (s d r : str) :
  Json.span_digits s = (d, r) -> length r <= length s.
Proof.
  revert d r. induction s as [|c s IH]; simpl; intros d r H.
  - injection H as <- <-. simpl; lia.
  - destruct (Json.is_digit c).
    + destruct (Json.span_digits s) as [d' r'] eqn:E.
      injection H as <- <-. specialize (IH _ _ eq_refl). lia.
    + injection H as <- <-. simpl; lia.
Qed.

Lemma scan_integer_shorter (s lit r : str) :
  Json.scan_integer s = Some (lit, r) -> length r < length s.
Proof.
  assert (Hbody : forall (sign s1 : str),
             match s1 with
             | [] => None
             | c :: s2 =>
                 if N.eqb c 48 then Some (sign ++ [48%N], s2)
                 else if Json.is_digit c
                      then let (d, r') := Json.span_digits s2 in
                           Some (sign ++ c :: d, r')
                      else None
             end = Some (lit, r) -> length r < length s1).
  { intros sign [|c s2]; [discriminate|].
    destruct (N.eqb c 48).
    - intros H; injection H as _ <-. simpl; lia.
    - destruct (Json.is_digit c); [|discriminate].
      destruct (Json.span_digits s2) as [d r'] eqn:E.
      apply span_digits_length in E.
      intros H; injection H as _ <-. simpl; lia. }
  unfold Json.scan_integer. destruct s as [|c s'].
  - discriminate.
  - destruct (N.eqb c 45); intros H;
      [apply (Hbody [45%N] s') in H | apply (Hbody [] (c :: s')) in H];
      simpl in *; lia.
Qed.

Lemma scan_frac_length (s f r : str) :
  Json.scan_frac s = (f, r) -> length r <= length s.
Proof.
  unfold Json.scan_frac. destruct s as [|c s1].
  - intros H; injection H as _ <-. lia.
  - destruct (N.eqb c 46).
    + destruct (Json.span_digits s1) as [d r'] eqn:E.
      apply span_digits_length in E.
      destruct d; intros H; injection H as _ <-; simpl; lia.
    + intros H; injection H as _ <-. lia.
Qed.

Lemma scan_exp_length (s x r : str) :
  Json.scan_exp s = (x, r) -> length r <= length s.
Proof.
  unfold Json.scan_exp. destruct s as [|e s1].
  - intros H; injection H as _ <-. lia.
  - destruct (N.eqb e 101 || N.eqb e 69).
    + destruct s1 as [|c s']; [|destruct (N.eqb c 45 || N.eqb c 43)];
        (destruct (Json.span_digits _) as [d r'] eqn:E;
         apply span_digits_length in E;
         destruct d; intros H; injection H as _ <-; simpl in *; lia).
    + intros H; injection H as _ <-. lia.
Qed.

Lemma scan_number_shorter (s : str) (v : value) (r : str) :
  Json.scan_number s = Some (v, r) -> length r < length s.
Proof.
  unfold Json.scan_number. intros H.
  destruct (Json.scan_integer s) as [[lit s1]|] eqn:Hint; [|discriminate].
  destruct (Json.scan_frac s1) as [f s2] eqn:Hfrac.
  destruct (Json.scan_exp s2) as [x s3] eqn:Hexp.
  apply scan_integer_shorter in Hint. apply scan_frac_length in Hfrac.
  apply scan_exp_length in Hexp.
  assert (r = s3) by (destruct f, x; congruence). subst r. lia.
Qed.

Lemma scan_atom_shorter (s : str) :
  Json.scan_atom s <> Json.OutOfFuel /\
  (forall v r, Json.scan_atom s = Json.Scanned v r -> length r < length s).
Proof.
  unfold Json.scan_atom. split.
  - repeat match goal with
           | |- context [match ?x with _ => _ end] => destruct x as [[]|] eqn:?
           | |- context [match ?x with _ => _ end] => destruct x eqn:?
           end; discriminate.
  - intros v r H.
    repeat (break_match_in H; try discriminate; subst);
      injection H as <- <-;
      repeat match goal with
             | E : Json.strip_prefix _ _ = Some _ |- _ =>
                 apply strip_prefix_length in E; simpl in E
             | E : Json.scan_number _ = Some _ |- _ =>
                 apply scan_number_shorter in E
             end; lia.
Qed.

(** With fuel above twice the length of the text, the three mutually
    recursive readers never run out of it, and what they leave is shorter
    than what they were given. *)
Lemma scan_once_fuel (fuel : nat) :
  (forall s, 2 * length s < fuel ->
     Json.scan_once fuel s <> Json.OutOfFuel /\
     forall v r, Json.scan_once fuel s = Json.Scanned v r ->
                 length r < length s) /\
  (forall acc s, 2 * length s + 1 < fuel ->
     Json.parse_items fuel acc s <> Json.OutOfFuel /\
     forall v r, Json.parse_items fuel acc s = Json.Scanned v r ->
                 length r < length s) /\
  (forall acc s, 2 * length s + 1 < fuel ->
     Json.parse_members fuel acc s <> Json.OutOfFuel /\
     forall v r, Json.parse_members fuel acc s = Json.Scanned v r ->
                 length r < length s).
Proof.
  induction fuel as [|f (IHonce & IHitems & IHmembers)].
  { repeat split; intros; lia. }
  split; [|split].
  - intros [|c s'] Hfuel; simpl; [split; [discriminate | discriminate]|].
    simpl in Hfuel.
    destruct (N.eqb c 34).
    { destruct (Json.scan_string s' []) as [[t r]|] eqn:E;
        [|split; discriminate].
      apply (scan_string_shorter _ _ _ _ _ (le_n _)) in E.
      split; [discriminate|]. intros v r' H; injection H as _ <-. lia. }
    destruct (N.eqb c 123).
    { pose proof (skip_ws_length s') as Hws.
      destruct (Json.skip_ws s') as [|c' r] eqn:E; [split; discriminate|].
      destruct (N.eqb c' 125).
      - split; [discriminate|]. intros v r' H; injection H as _ <-.
        simpl in Hws. lia.
      - destruct (IHmembers [] (c' :: r)) as [Hne Hlen]; [lia|].
        split; [exact Hne|]. intros v r' H. apply Hlen in H. lia. }
    destruct (N.eqb c 91).
    { pose proof (skip_ws_length s') as Hws.
      destruct (Json.skip_ws s') as [|c' r] eqn:E; [split; discriminate|].
      destruct (N.eqb c' 93).
      - split; [discriminate|]. intros v r' H; injection H as _ <-.
        simpl in Hws. lia.
      - destruct (IHitems [] (c' :: r)) as [Hne Hlen]; [lia|].
        split; [exact Hne|]. intros v r' H. apply Hlen in H. lia. }
    apply (scan_atom_shorter (c :: s')).
  - intros acc s Hfuel; simpl.
    destruct (IHonce s) as [Hne Hlen]; [lia|].
    destruct (Json.scan_once f s) as [v r| |]; [|split; discriminate|congruence].
    specialize (Hlen v r eq_refl).
    pose proof (skip_ws_length r) as Hws.
    destruct (Json.skip_ws r) as [|c r'] eqn:E; [split; discriminate|].
    simpl in Hws.
    destruct (N.eqb c 93).
    { split; [discriminate|]. intros v' r'' H; injection H as _ <-. lia. }
    destruct (N.eqb c 44); [|split; discriminate].
    pose proof (skip_ws_length r') as Hws'.
    destruct (IHitems (v :: acc) (Json.skip_ws r')) as [Hne' Hlen']; [lia|].
    split; [exact Hne'|]. intros v' r'' H. apply Hlen' in H. lia.
  - intros acc [|q s1] Hfuel; simpl; [split; discriminate|].
    simpl in Hfuel.
    destruct (N.eqb q 34); [|split; discriminate].
    destruct (Json.scan_string s1 []) as [[key r1]|] eqn:Ekey;
      [|split; discriminate].
    apply (scan_string_shorter _ _ _ _ _ (le_n _)) in Ekey.
    pose proof (skip_ws_length r1) as Hws1.
    destruct (Json.skip_ws r1) as [|colon r2] eqn:E1; [split; discriminate|].
    simpl in Hws1.
    destruct (N.eqb colon 58); [|split; discriminate].
    pose proof (skip_ws_length r2) as Hws2.
    destruct (IHonce (Json.skip_ws r2)) as [Hne Hlen]; [lia|].
    destruct (Json.scan_once f (Json.skip_ws r2)) as [v r3| |];
      [|split; discriminate|congruence].
    specialize (Hlen v r3 eq_refl).
    pose proof (skip_ws_length r3) as Hws3.
    destruct (Json.skip_ws r3) as [|c r4] eqn:E3; [split; discriminate|].
    simpl in Hws3.
    destruct (N.eqb c 125).
    { split; [discriminate|]. intros v' r' H; injection H as _ <-. lia. }
    destruct (N.eqb c 44); [|split; discriminate].
    pose proof (skip_ws_length r4) as Hws4.
    destruct (IHmembers (dict_set key v acc) (Json.skip_ws r4))
      as [Hne' Hlen']; [lia|].
    split; [exact Hne'|]. intros v' r' H. apply Hlen' in H. lia.
Qed.

(** [json.loads] is total: the fuel of [decode] always suffices. *)
Lemma decode_fuel (s : str) : Json.decode s <> Json.OutOfFuel.
Proof.
  unfold Json.decode.
  destruct (scan_once_fuel (2 * length s + 2)) as [Honce _].
  pose proof (skip_ws_length s) as Hws.
  destruct (Honce (Json.skip_ws s)) as [Hne _]; [lia|].
  destruct (Json.scan_once (2 * length s + 2) (Json.skip_ws s)) as [v r| |];
    [|discriminate|congruence].
  destruct (Json.skip_ws r); discriminate.
Qed.

(** * Further properties of the program *)

(** ** The text handed to the JSON decoder *)








(** ** What the loader raises *)

Lemma mapM_Raise_In {A B : Type} (f : A -> result B) (l : list A) (e : exn) :
  mapM f l = Raise e -> exists x, In x l /\ f x = Raise e.
Proof.
  induction l as [|x l IH]; simpl; [discriminate|].
  destruct (f x) as [y|e'] eqn:Hx; cbn [bind].
  - destruct (mapM f l) as [ys|e'] eqn:Hl; cbn [bind]; [discriminate|].
    intros H; injection H as ->. destruct (IH eq_refl) as (x' & Hin & Hx').
    exists x'. split; [right; assumption | assumption].
  - intros H; injection H as ->. exists x. split; [left; reflexivity | assumption].
Qed.

Lemma read_payload_exceptions (content : str) (e : exn) :
  read_payload content = Raise e -> e = IndexError \/ e = JSONDecodeError.
Proof.
  unfold read_payload, list_getitem.
  destruct (nth_error (split_once equals_sign content) 1) as [after|];
    cbn [bind].
  - intros H. right. apply (loads_raises_JSONDecodeError _ _ H).
  - intros H; injection H as <-. left. reflexivity.
Qed.

Lemma getitem_exceptions (v : value) (k : str) (e : exn) :
  getitem v k = Raise e -> e = TypeError \/ e = KeyError k.
Proof.
  destruct v as [| | | | | |members]; simpl;
    try (intros H; injection H as <-; left; reflexivity).
  destruct (dict_get k members); [discriminate|].
  intros H; injection H as <-. right. reflexivity.
Qed.

Lemma extract_tweet_exceptions (tweet : value) (e : exn) :
  extract_tweet tweet = Raise e ->
  e = TypeError \/ exists k, e = KeyError k /\ In k subscripted_keys.
Proof.
  unfold extract_tweet, subscripted_keys.
  destruct (getitem tweet (u "tweet")) as [post|e0] eqn:Htweet; cbn [bind].
  2:{ intros H; injection H as ->.
      destruct (getitem_exceptions _ _ _ Htweet) as [->| ->];
        [left; reflexivity | right; eexists; split; [reflexivity | simpl; auto]]. }
  destruct (getitem post (u "id")) as [i|e0] eqn:Hid; cbn [bind].
  2:{ intros H; injection H as ->.
      destruct (getitem_exceptions _ _ _ Hid) as [->| ->];
        [left; reflexivity | right; eexists; split; [reflexivity | simpl; auto]]. }
  destruct (getitem post (u "created_at")) as [c|e0] eqn:Hc; cbn [bind].
  2:{ intros H; injection H as ->.
      destruct (getitem_exceptions _ _ _ Hc) as [->| ->];
        [left; reflexivity | right; eexists; split; [reflexivity | simpl; auto]]. }
  destruct post as [| | | | | |post]; try discriminate. simpl.
  destruct (dict_get (u "full_text") post) as [f|]; simpl; [discriminate|].
  destruct (dict_get (u "text") post) as [t|]; simpl; [discriminate|].
  intros H; injection H as <-.
  right; eexists; split; [reflexivity | simpl; auto].
Qed.

(** X2.  When the file is read, [load_twitter_data] raises nothing but
    [IndexError], [JSONDecodeError], [TypeError], a [KeyError] for one of
    the keys [tweet], [id], [created_at], [text], or what the date parser
    raises on a cell.  A missing [full_text] alone never raises. *)
Theorem load_twitter_data_exceptions (file_path content : str) (e : exn) :
  open_read file_path = Return content ->
  load_twitter_data file_path = Raise e ->
  e = IndexError \/ e = JSONDecodeError \/ e = TypeError \/
  (exists k, e = KeyError k /\ In k subscripted_keys) \/
  (exists cell, to_datetime_scalar cell = Raise e).
Proof.
  intros Hread. rewrite (load_twitter_data_read _ _ Hread).
  destruct (read_payload content) as [data|e0] eqn:Hpayload; cbn [bind].
  2:{ intros H; injection H as ->.
      destruct (read_payload_exceptions _ _ Hpayload) as [->| ->]; auto. }
  unfold extract_tweets.
  destruct (iterate data) as [items|e0] eqn:Hiter; cbn [bind].
  2:{ intros H; injection H as ->.
      destruct data; simpl in Hiter; try discriminate;
        injection Hiter as <-; auto. }
  destruct (mapM extract_tweet items) as [tweets|e0] eqn:Hmap; cbn [bind].
  2:{ intros H; injection H as ->.
      apply mapM_Raise_In in Hmap. destruct Hmap as (x & _ & Hx).
      destruct (extract_tweet_exceptions _ _ Hx) as [->|Hk]; auto. }
  destruct tweets as [|t tweets]; unfold to_frame.
  - intros H; injection H as <-. right; right; right; left.
    eexists; split; [reflexivity | unfold subscripted_keys; simpl; auto].
  - destruct (to_datetime (map raw_created_at (t :: tweets))) as [stamps|e0]
      eqn:Hstamps; cbn [bind]; [discriminate|].
    intros H; injection H as ->. unfold to_datetime in Hstamps.
    apply mapM_Raise_In in Hstamps. destruct Hstamps as (cell & _ & Hcell).
    right; right; right; right. exists cell. exact Hcell.
Qed.

(** X3.  A missing key raises [KeyError] with the name of the first key
    that is missing, in the order [tweet], [id], [created_at], and [text]
    when neither [full_text] nor [text] is there; an element or a post
    that is not a dict raises [TypeError]. *)
Theorem extract_tweet_missing_key (members : list (str * value)) :
  (dict_get (u "tweet") members = None ->
   extract_tweet (JObject members) = Raise (KeyError (u "tweet"))) /\
  (forall post i c,
      dict_get (u "tweet") members = Some (JObject post) ->
      (dict_get (u "id") post = None ->
       extract_tweet (JObject members) = Raise (KeyError (u "id"))) /\
      (dict_get (u "id") post = Some i ->
       dict_get (u "created_at") post = None ->
       extract_tweet (JObject members) = Raise (KeyError (u "created_at"))) /\
      (dict_get (u "id") post = Some i ->
       dict_get (u "created_at") post = Some c ->
       dict_get (u "full_text") post = None ->
       dict_get (u "text") post = None ->
       extract_tweet (JObject members) = Raise (KeyError (u "text")))) /\
  (forall v,
      dict_get (u "tweet") members = Some v ->
      (forall post, v <> JObject post) ->
      extract_tweet (JObject members) = Raise TypeError).
Proof.
  unfold extract_tweet. simpl. split; [|split].
  - intros ->. reflexivity.
  - intros post i c ->. simpl. split; [|split].
    + intros ->. reflexivity.
    + intros -> ->. reflexivity.
    + intros -> -> -> ->. reflexivity.
  - intros v -> Hv. destruct v; simpl; try reflexivity.
    exfalso. eapply Hv. reflexivity.
Qed.

(** X4.  A payload whose JSON document is not an array never gives a
    frame: a number, a boolean, [null], a non-empty string and a non-empty
    object raise [TypeError]; the empty string and the empty object raise
    [KeyError] for [created_at], like the empty array. *)
Theorem load_twitter_data_not_an_array
  (file_path content : str) (data : value) :
  open_read file_path = Return content ->
  read_payload content = Return data ->
  (forall items, data <> JArray items) ->
  load_twitter_data file_path =
  match data with
  | JString [] | JObject [] => Raise (KeyError (u "created_at"))
  | _ => Raise TypeError
  end.
Proof.
  intros Hread Hpayload Hdata.
  rewrite (load_twitter_data_read _ _ Hread), Hpayload; cbn [bind].
  destruct data as [| | | |s|items|members]; try reflexivity.
  - destruct s; reflexivity.
  - exfalso. eapply Hdata. reflexivity.
  - destruct members as [|[k v] members]; reflexivity.
Qed.

(** X5.  [load_twitter_data] returns only for a well-formed archive: the
    document is a non-empty array, every element holds a post with [id],
    [created_at] and a text, every [created_at] is accepted by the date
    parser, and the frame, which is never empty, has one row for each
    element. *)
Theorem load_twitter_data_returns (file_path : str) (df : DataFrame) :
  load_twitter_data file_path = Return df ->
  exists content items tweets,
    open_read file_path = Return content /\
    read_payload content = Return (JArray items) /\
    items <> [] /\
    Forall2 post_fields items tweets /\
    Forall2 row_of tweets df /\
    df <> [].
Proof.
  unfold load_twitter_data.
  destruct (open_read file_path) as [content|] eqn:Hread; cbn [bind];
    [|discriminate].
  destruct (read_payload content) as [data|] eqn:Hpayload; cbn [bind];
    [|discriminate].
  destruct (extract_tweets data) as [tweets|] eqn:Hextract; cbn [bind];
    [|discriminate].
  intros Hframe. pose proof (to_frame_rows _ _ Hframe) as Hrows.
  assert (Htweets : tweets <> []).
  { intros ->. discriminate. }
  assert (Hitems : exists items, data = JArray items).
  { unfold extract_tweets in Hextract.
    destruct data as [| | | |s|items|members]; try discriminate.
    - destruct s as [|c s]; simpl in Hextract.
      + injection Hextract as <-. congruence.
      + discriminate.
    - exists items. reflexivity.
    - destruct members as [|[k v] members]; simpl in Hextract.
      + injection Hextract as <-. congruence.
      + discriminate. }
  destruct Hitems as [items ->].
  apply extract_tweets_array in Hextract.
  exists content, items, tweets.
  repeat (split; [assumption || reflexivity|]).
  split; [|split; [assumption | split; [assumption|]]].
  - intros ->. inversion Hextract. congruence.
  - intros ->. inversion Hrows. congruence.
Qed.

(** ** The tables of the linguistic extractor *)

Lemma total_dict_set (x : str) (c : Counter) :
  total (counter_add x c) = S (total c).
Proof.
  unfold counter_add, total. induction c as [|[k n] c IH]; simpl; [reflexivity|].
  destruct (str_eqb x k) eqn:E; simpl.
  - reflexivity.
  - rewrite IH. lia.
Qed.

Lemma Counter_of_total (xs : list str) : total (Counter_of xs) = length xs.
Proof.
  induction xs as [|x xs IH] using rev_ind; [reflexivity|].
  rewrite Counter_of_snoc, total_dict_set, IH, length_app. simpl. lia.
Qed.

Lemma count_of_Counter_of (k : str) (xs : list str) :
  count_of k (Counter_of xs) = occurrences k xs.
Proof.
  unfold count_of. rewrite Counter_of_get.
  destruct (occurrences k xs); reflexivity.
Qed.

Lemma entity_labels_length (docs : list Doc) :
  length (entity_labels docs) = length (flat_map ents docs).
Proof.
  unfold entity_labels. induction docs as [|doc docs IH]; simpl; [reflexivity|].
  rewrite !length_app, length_map, IH. reflexivity.
Qed.

Lemma content_lemmas_length (docs : list Doc) :
  length (content_lemmas docs) = length (filter keep_token (flat_map tokens docs)).
Proof.
  unfold content_lemmas. induction docs as [|doc docs IH]; simpl; [reflexivity|].
  rewrite filter_app, !length_app, length_map, IH. reflexivity.
Qed.

(** X6.  Every mention counts: the counts of the entity table add up to
    the number of entity mentions of the batch, and the counts of the
    lemma table to the number of tokens that are neither stop words nor
    punctuation and are alphabetic. *)
Theorem analyze_self_expression_totals
  (tweets : list value) (docs : list Doc) (entities_count lemmas_count : Counter) :
  nlp_pipe tweets = Return docs ->
  analyze_self_expression tweets = Return (entities_count, lemmas_count) ->
  total entities_count = length (flat_map ents docs) /\
  total lemmas_count = length (filter keep_token (flat_map tokens docs)).
Proof.
  intros Hdocs. rewrite (analyze_self_expression_docs _ _ Hdocs).
  intros H; injection H as <- <-.
  rewrite !Counter_of_total, entity_labels_length, content_lemmas_length.
  split; reflexivity.
Qed.

Lemma mapM_app {A B : Type} (f : A -> result B) (l1 l2 : list A)
  (r1 r2 : list B) :
  mapM f l1 = Return r1 -> mapM f l2 = Return r2 ->
  mapM f (l1 ++ l2) = Return (r1 ++ r2).
Proof.
  rewrite !mapM_Forall2. apply Forall2_app.
Qed.

Lemma analyze_self_expression_inv (tweets : list value) (ec lc : Counter) :
  analyze_self_expression tweets = Return (ec, lc) ->
  exists docs, nlp_pipe tweets = Return docs /\
               ec = Counter_of (entity_labels docs) /\
               lc = Counter_of (content_lemmas docs).
Proof.
  unfold analyze_self_expression.
  destruct (nlp_pipe tweets) as [docs|]; cbn [bind]; [|discriminate].
  intros H; injection H as <- <-. exists docs. auto.
Qed.

(** X7.  Batches compose: analysing two batches together counts, for
    every entity label and every lemma, the sum of what the two batches
    count alone. *)
Theorem analyze_self_expression_app
  (tweets1 tweets2 : list value) (e1 l1 e2 l2 : Counter) :
  analyze_self_expression tweets1 = Return (e1, l1) ->
  analyze_self_expression tweets2 = Return (e2, l2) ->
  exists e l,
    analyze_self_expression (tweets1 ++ tweets2) = Return (e, l) /\
    forall k, count_of k e = count_of k e1 + count_of k e2 /\
              count_of k l = count_of k l1 + count_of k l2.
Proof.
  intros H1 H2.
  apply analyze_self_expression_inv in H1, H2.
  destruct H1 as (d1 & Hd1 & -> & ->). destruct H2 as (d2 & Hd2 & -> & ->).
  eexists _, _. split.
  - apply analyze_self_expression_docs. unfold nlp_pipe in *.
    apply mapM_app; eassumption.
  - intros k. rewrite !count_of_Counter_of.
    unfold entity_labels. rewrite flat_map_app.
    rewrite content_lemmas_app. unfold occurrences.
    rewrite !count_occ_app. split; reflexivity.
Qed.

Lemma mapM_Permutation {A B : Type} (f : A -> result B) (l l' : list A) :
  Permutation l l' ->
  forall r, mapM f l = Return r ->
            exists r', mapM f l' = Return r' /\ Permutation r r'.
Proof.
  induction 1 as [|x l l' _ IH|x y l|l l' l'' _ IH1 _ IH2]; intros r; simpl.
  - intros H; injection H as <-. exists []. split; [reflexivity | constructor].
  - destruct (f x) as [b|]; cbn [bind]; [|discriminate].
    destruct (mapM f l) as [r0|]; cbn [bind]; [|discriminate].
    intros H; injection H as <-. destruct (IH r0 eq_refl) as (r' & -> & Hp).
    exists (b :: r'). split; [reflexivity | constructor; assumption].
  - destruct (f y) as [b|]; cbn [bind]; [|discriminate].
    destruct (f x) as [a|]; cbn [bind]; [|discriminate].
    destruct (mapM f l) as [r0|]; cbn [bind]; [|discriminate].
    intros H; injection H as <-. exists (a :: b :: r0).
    split; [reflexivity | apply perm_swap].
  - intros H. destruct (IH1 r H) as (r' & H' & Hp).
    destruct (IH2 r' H') as (r'' & H'' & Hp').
    exists r''. split; [assumption | eapply perm_trans; eassumption].
Qed.

(** X8.  The counts do not depend on the order of the tweets: analysing a
    reordered batch gives, for every entity label and every lemma, the
    same count (only the order of the entries of the tables may change). *)
Theorem analyze_self_expression_order
  (tweets tweets' : list value) (e l : Counter) :
  Permutation tweets tweets' ->
  analyze_self_expression tweets = Return (e, l) ->
  exists e' l',
    analyze_self_expression tweets' = Return (e', l') /\
    forall k, count_of k e' = count_of k e /\ count_of k l' = count_of k l.
Proof.
  intros Hperm H. apply analyze_self_expression_inv in H.
  destruct H as (docs & Hdocs & -> & ->).
  destruct (mapM_Permutation nlp _ _ Hperm docs Hdocs) as (docs' & Hdocs' & Hp).
  eexists _, _. split; [apply analyze_self_expression_docs; exact Hdocs'|].
  intros k. rewrite !count_of_Counter_of. unfold occurrences.
  split; apply Permutation_count_occ; apply Permutation_sym;
    unfold entity_labels, content_lemmas; apply Permutation_flat_map; assumption.
Qed.

(** X9.  A failure of the annotator is not caught: when it raises on a
    text, after having annotated the texts before it, both
    [analyze_self_expression] and [analyze_year] raise the same exception. *)
Theorem annotator_failure_propagates
  (seed : N) (df_year : DataFrame) (pre : list value) (t : value)
  (post : list value) (e : exn) :
  map full_text df_year = pre ++ t :: post ->
  Forall (fun x => exists doc, nlp x = Return doc) pre ->
  nlp t = Raise e ->
  analyze_self_expression (map full_text df_year) = Raise e /\
  analyze_year seed df_year = Raise e.
Proof.
  intros Htexts Hpre Ht.
  assert (H : analyze_self_expression (map full_text df_year) = Raise e).
  { unfold analyze_self_expression, nlp_pipe. rewrite Htexts.
    rewrite (mapM_first_Raise nlp pre t post e Hpre Ht). reflexivity. }
  split; [exact H|]. unfold analyze_year. rewrite H. reflexivity.
Qed.

Lemma content_lemmas_all_flagged (docs : list Doc) :
  Forall (fun doc => Forall flagged (tokens doc)) docs ->
  content_lemmas docs = [].
Proof.
  induction 1 as [|doc docs Hdoc _ IH]; [reflexivity|].
  change (doc :: docs) with ([doc] ++ docs).
  rewrite content_lemmas_app, (content_lemmas_flagged doc Hdoc), IH.
  reflexivity.
Qed.

(** X10.  A year without content words has no report: when every token of
    the year's texts is a stop word, punctuation or not alphabetic, the
    lemma table is empty, and if the renderer refuses an empty table (the
    word-cloud library does) [analyze_year] raises what the renderer
    raises, whatever the entities and the monthly counts are. *)
Theorem analyze_year_no_content_word
  (seed : N) (df_year : DataFrame) (docs : list Doc) (e : exn) :
  nlp_pipe (map full_text df_year) = Return docs ->
  Forall (fun doc => Forall flagged (tokens doc)) docs ->
  wordcloud_refuses [] = Some e ->
  analyze_year seed df_year = Raise e.
Proof.
  intros Hdocs Hflagged Hrefuse.
  rewrite (analyze_year_docs _ _ _ Hdocs).
  rewrite (content_lemmas_all_flagged _ Hflagged).
  unfold generate_wordcloud. change (Counter_of []) with (@nil (str * nat)).
  rewrite Hrefuse. reflexivity.
Qed.

(** X11.  With at most ten distinct entity labels nothing is cut off:
    [top_entities] holds every label of the year with the number of its
    mentions, and is a rearrangement of the whole entity table. *)
Theorem analyze_year_top_entities_complete
  (seed : N) (df_year : DataFrame) (docs : list Doc)
  (tweet_counts : list ((Z * Z) * nat)) (top_entities : list (str * nat))
  (wordcloud_fig : Figure Layout) :
  nlp_pipe (map full_text df_year) = Return docs ->
  analyze_year seed df_year = Return (tweet_counts, top_entities, wordcloud_fig) ->
  length (nodup str_eq_dec (entity_labels docs)) <= 10 ->
  Permutation top_entities (Counter_of (entity_labels docs)) /\
  forall a, In a (entity_labels docs) ->
            In (a, occurrences a (entity_labels docs)) top_entities.
Proof.
  intros Hdocs Hyear Hlen.
  apply analyze_year_inv in Hyear. destruct Hyear as (docs' & Hdocs' & _ & -> & _).
  rewrite Hdocs in Hdocs'. injection Hdocs' as <-.
  assert (Hperm : Permutation (most_common 10 (Counter_of (entity_labels docs)))
                              (Counter_of (entity_labels docs))).
  { unfold most_common. rewrite firstn_all2; [apply sorted_desc_perm|].
    rewrite (Permutation_length (sorted_desc_perm _)), Counter_of_length.
    exact Hlen. }
  split; [exact Hperm|]. intros a Ha.
  apply (Permutation_in _ (Permutation_sym Hperm)).
  apply Counter_of_In. split; [assumption | reflexivity].
Qed.

(** ** Monthly counts lose no row *)

Lemma list_sum_map_add {A : Type} (f g : A -> nat) (l : list A) :
  list_sum (map (fun x => f x + g x) l) = list_sum (map f l) + list_sum (map g l).
Proof.
  induction l as [|x l IH]; simpl; [reflexivity|]. rewrite IH. lia.
Qed.

Lemma month_indicator_sum (x lo : Z) (s n : nat) :
  list_sum (map (fun i => if Z.eq_dec x (lo + Z.of_nat i) then 1 else 0)
                (seq s n))
  = if ((lo + Z.of_nat s <=? x) && (x <? lo + Z.of_nat s + Z.of_nat n))%Z
    then 1 else 0.
Proof.
  revert s. induction n as [|n IH]; intros s; cbn [seq map].
  - change (list_sum []) with 0.
    destruct (Z.leb_spec (lo + Z.of_nat s) x),
             (Z.ltb_spec x (lo + Z.of_nat s + Z.of_nat 0));
      cbn [andb]; try reflexivity; lia.
  - match goal with
    | |- context [list_sum (?h :: ?t)] =>
        change (list_sum (h :: t)) with (h + list_sum t)
    end.
    rewrite IH.
    destruct (Z.eq_dec x (lo + Z.of_nat s));
      destruct (Z.leb_spec (lo + Z.of_nat (S s)) x),
               (Z.ltb_spec x (lo + Z.of_nat (S s) + Z.of_nat n)),
               (Z.leb_spec (lo + Z.of_nat s) x),
               (Z.ltb_spec x (lo + Z.of_nat s + Z.of_nat (S n)));
      cbn [andb Nat.add]; try reflexivity; lia.
Qed.

Lemma month_counts_sum (ks : list Z) (lo : Z) (n : nat) :
  Forall (fun k => (lo <= k < lo + Z.of_nat n)%Z) ks ->
  list_sum (map (fun i => count_occ Z.eq_dec ks (lo + Z.of_nat i)%Z) (seq 0 n))
  = length ks.
Proof.
  induction 1 as [|k ks Hk _ IH]; simpl.
  - induction (seq 0 n) as [|i l IHl]; simpl; [reflexivity | exact IHl].
  - rewrite <- IH.
    rewrite (map_ext
               (fun i => if Z.eq_dec k (lo + Z.of_nat i)
                         then S (count_occ Z.eq_dec ks (lo + Z.of_nat i)%Z)
                         else count_occ Z.eq_dec ks (lo + Z.of_nat i)%Z)
               (fun i => (if Z.eq_dec k (lo + Z.of_nat i) then 1 else 0)
                         + count_occ Z.eq_dec ks (lo + Z.of_nat i)%Z))
      by (intros i; destruct (Z.eq_dec k (lo + Z.of_nat i)); reflexivity).
    rewrite list_sum_map_add, month_indicator_sum.
    destruct (Z.leb_spec (lo + Z.of_nat 0) k),
             (Z.ltb_spec k (lo + Z.of_nat 0 + Z.of_nat n));
      cbn [andb Nat.add]; try reflexivity; lia.
Qed.

Lemma month_indices_length (stamps : list Timestamp) :
  length (month_indices stamps)
  = length (filter (fun t => match t with TS _ => true | NaT => false end) stamps).
Proof.
  unfold month_indices. induction stamps as [|[|d] stamps IH]; simpl;
    [reflexivity | exact IH | rewrite IH; reflexivity].
Qed.

Lemma resample_M_size_total (stamps : list Timestamp) :
  list_sum (map snd (resample_M_size stamps)) = length (month_indices stamps).
Proof.
  unfold resample_M_size.
  destruct (month_indices stamps) as [|k ks]; [reflexivity|].
  destruct (fold_left_min_spec ks k) as [Hlo_in Hlo].
  destruct (fold_left_max_spec ks k) as [Hhi_in Hhi].
  set (lo := fold_left Z.min ks k) in *. set (hi := fold_left Z.max ks k) in *.
  rewrite map_map. cbn [snd].
  apply month_counts_sum.
  rewrite Forall_forall in *. intros x Hx.
  pose proof (Hlo x Hx). pose proof (Hhi x Hx). pose proof (Hlo hi Hhi_in). lia.
Qed.

(** X12.  No row is lost or counted twice by the monthly counts: the
    counts of the series [analyze_year] returns add up to the number of
    rows of the frame that have a timestamp, which for a year's frame is
    the number of its rows. *)
Theorem analyze_year_tweet_counts_total
  (seed : N) (df_year : DataFrame) (tweet_counts : list ((Z * Z) * nat))
  (top_entities : list (str * nat)) (wordcloud_fig : Figure Layout) :
  analyze_year seed df_year = Return (tweet_counts, top_entities, wordcloud_fig) ->
  list_sum (map snd tweet_counts) = length (filter has_timestamp df_year) /\
  (forall y, Forall (in_year y) df_year ->
             list_sum (map snd tweet_counts) = length df_year).
Proof.
  intros Hyear. apply analyze_year_inv in Hyear.
  destruct Hyear as (_ & _ & -> & _).
  rewrite resample_M_size_total, month_indices_length.
  assert (E : length (filter (fun t => match t with TS _ => true | NaT => false end)
                             (map created_at df_year))
              = length (filter has_timestamp df_year)).
  { unfold has_timestamp. induction df_year as [|r df IH]; simpl; [reflexivity|].
    destruct (created_at r); simpl; rewrite IH; reflexivity. }
  rewrite E. split; [reflexivity|].
  intros y Hy. f_equal. clear E.
  induction Hy as [|r df (d & Hd & _) _ IH]; simpl; [reflexivity|].
  unfold has_timestamp at 1. rewrite Hd, IH. reflexivity.
Qed.

(** ** The years of a run *)

Lemma year_leb_total (a b : option Z) :
  year_leb a b = false -> year_leb b a = true.
Proof.
  destruct a as [x|], b as [y|]; simpl; try discriminate; try reflexivity.
  rewrite Z.leb_gt, Z.leb_le. lia.
Qed.

Lemma year_leb_trans (a b c : option Z) :
  year_leb a b = true -> year_leb b c = true -> year_leb a c = true.
Proof.
  destruct a as [x|], b as [y|], c as [z|]; simpl;
    try discriminate; try reflexivity.
  rewrite !Z.leb_le. lia.
Qed.

Lemma insert_year_sorted (x : option Z) (l : list (option Z)) :
  StronglySorted (fun a b => year_leb a b = true) l ->
  StronglySorted (fun a b => year_leb a b = true) (insert_year x l).
Proof.
  induction 1 as [|y l Hs IH Hy]; simpl.
  - repeat constructor.
  - destruct (year_leb x y) eqn:E.
    + constructor; [constructor; assumption|].
      constructor; [assumption|].
      eapply Forall_impl; [|exact Hy].
      intros z Hz. eapply year_leb_trans; eassumption.
    + constructor; [assumption|].
      apply (Permutation_Forall (Permutation_sym (insert_year_perm x l))).
      constructor; [apply year_leb_total; assumption | assumption].
Qed.

Lemma sort_years_sorted (l : list (option Z)) :
  StronglySorted (fun a b => year_leb a b = true) (sort_years l).
Proof.
  induction l as [|x l IH]; simpl; [constructor|].
  apply insert_year_sorted, IH.
Qed.

Lemma unique_NoDup (l : list (option Z)) : NoDup (unique l).
Proof.
  induction l as [|x l IH]; simpl; constructor.
  - intros H. apply filter_In in H. destruct H as [_ H].
    assert (E : year_same x x = true) by (apply year_same_eq; reflexivity).
    rewrite E in H. discriminate.
  - apply NoDup_filter, IH.
Qed.

Lemma year_lt_leb (a b : option Z) :
  year_leb a b = true -> a <> b -> year_lt a b.
Proof.
  destruct a as [x|], b as [y|]; simpl; try discriminate; try congruence; auto.
  rewrite Z.leb_le. intros H Hne.
  assert (x <> y) by congruence. lia.
Qed.

Lemma StronglySorted_strict {A : Type} (R : A -> A -> Prop) (l : list A) :
  StronglySorted R l -> NoDup l ->
  StronglySorted (fun a b => R a b /\ a <> b) l.
Proof.
  induction 1 as [|x l Hs IH Hx]; intros Hnd; [constructor|].
  inversion Hnd as [|? ? Hnotin Hnd']; subst. constructor; [auto|].
  rewrite Forall_forall in *. intros y Hy. split; [auto|].
  intros ->. contradiction.
Qed.

Lemma years_of_sorted (df : DataFrame) :
  StronglySorted year_lt (years_of df).
Proof.
  unfold years_of.
  assert (Hnd : NoDup (sort_years (unique (map (fun r => dt_year (created_at r)) df)))).
  { eapply Permutation_NoDup;
      [apply Permutation_sym, sort_years_perm | apply unique_NoDup]. }
  pose proof (StronglySorted_strict _ _ (sort_years_sorted _) Hnd) as H.
  eapply StronglySorted_weaken; [|exact H].
  intros a b _ _ [Hle Hne]. apply year_lt_leb; assumption.
Qed.

(** X13.  The years of a run are exactly the years in which the frame has
    a record, each once, in ascending order; the NaN of rows without a
    timestamp, if there is one, comes last. *)
Theorem years_of_ascending (df : DataFrame) :
  StronglySorted year_lt (years_of df) /\
  forall y, In y (years_of df) <->
            exists r, In r df /\ dt_year (created_at r) = y.
Proof.
  split; [apply years_of_sorted | intros y; apply years_of_In].
Qed.

Lemma list_sum_cons (a : nat) (l : list nat) : list_sum (a :: l) = a + list_sum l.
Proof. reflexivity. Qed.

Lemma year_indicator_absent (x : Z) (years : list (option Z)) :
  ~ In (Some x) years ->
  list_sum (map (fun y => if year_eqb (Some x) y then 1 else 0) years) = 0.
Proof.
  induction years as [|y years IH]; intros Hnotin; [reflexivity|].
  cbn [map]. rewrite list_sum_cons, IH by (intros H; apply Hnotin; right; exact H).
  destruct y as [y|]; [|reflexivity]. simpl.
  destruct (Z.eqb_spec x y) as [->|_]; [|reflexivity].
  exfalso. apply Hnotin. left. reflexivity.
Qed.

Lemma year_indicator_sum (x : Z) (years : list (option Z)) :
  NoDup years -> In (Some x) years ->
  list_sum (map (fun y => if year_eqb (Some x) y then 1 else 0) years) = 1.
Proof.
  induction 1 as [|y years Hnotin Hnd IH]; [intros []|].
  cbn [map]. rewrite list_sum_cons. intros [->|Hin].
  - rewrite (year_indicator_absent x years Hnotin). simpl.
    rewrite Z.eqb_refl. reflexivity.
  - rewrite (IH Hin). destruct y as [y|]; [|reflexivity]. simpl.
    destruct (Z.eqb_spec x y) as [->|_]; [|reflexivity].
    contradiction.
Qed.

Lemma list_sum_zero {A : Type} (l : list A) :
  list_sum (map (fun _ => 0) l) = 0.
Proof. induction l; simpl; auto. Qed.

Lemma select_year_lengths (df : DataFrame) (years : list (option Z)) :
  NoDup years ->
  (forall r, In r df -> has_timestamp r = true ->
             In (dt_year (created_at r)) years) ->
  list_sum (map (fun y => length (select_year df y)) years)
  = length (filter has_timestamp df).
Proof.
  intros Hnd. induction df as [|r df IH]; intros Hyears.
  - simpl. apply list_sum_zero.
  - unfold select_year in *. simpl.
    rewrite (map_ext
               (fun y => length (if year_eqb (dt_year (created_at r)) y
                                 then r :: filter (fun r0 => year_eqb (dt_year (created_at r0)) y) df
                                 else filter (fun r0 => year_eqb (dt_year (created_at r0)) y) df))
               (fun y => (if year_eqb (dt_year (created_at r)) y then 1 else 0)
                         + length (filter (fun r0 => year_eqb (dt_year (created_at r0)) y) df)))
      by (intros y; destruct (year_eqb (dt_year (created_at r)) y); reflexivity).
    rewrite list_sum_map_add, IH by (intros r0 H0; apply Hyears; right; exact H0).
    pose proof (Hyears r (or_introl eq_refl)) as Hr.
    unfold has_timestamp at 2. unfold has_timestamp in Hr.
    destruct (created_at r) as [|d]; cbn [dt_year] in *.
    + cbn [year_eqb]. rewrite list_sum_zero. reflexivity.
    + rewrite (year_indicator_sum (year d) years Hnd (Hr eq_refl)). reflexivity.
Qed.

(** X14.  The frames of the years split the frame: the frame of a year
    holds exactly the rows of that year, every year of the run has a
    non-empty frame, the frame selected for NaN is empty, and the sizes of
    the frames of all years add up to the number of rows that have a
    timestamp. *)
Theorem year_frames_partition (df : DataFrame) :
  (forall y r, In r (select_year df (Some y)) <->
               In r df /\ dt_year (created_at r) = Some y) /\
  (forall y, In (Some y) (years_of df) -> select_year df (Some y) <> []) /\
  select_year df None = [] /\
  list_sum (map (fun y => length (select_year df y)) (years_of df))
  = length (filter has_timestamp df).
Proof.
  split; [|split; [|split]].
  - intros y r. unfold select_year. rewrite filter_In. split.
    + intros [Hin H]. split; [assumption|].
      destruct (dt_year (created_at r)) as [x|]; simpl in H; [|discriminate].
      apply Z.eqb_eq in H. congruence.
    + intros [Hin ->]. split; [assumption | simpl; apply Z.eqb_refl].
  - intros y Hy. apply years_of_In in Hy. destruct Hy as (r & Hin & Hr).
    assert (H : In r (select_year df (Some y))).
    { apply filter_In. split; [assumption|]. rewrite Hr. simpl. apply Z.eqb_refl. }
    intros E. rewrite E in H. exact H.
  - unfold select_year. induction df as [|r df IH]; simpl; [reflexivity|].
    destruct (dt_year (created_at r)); simpl; exact IH.
  - apply select_year_lengths.
    + unfold years_of. eapply Permutation_NoDup;
        [apply Permutation_sym, sort_years_perm | apply unique_NoDup].
    + intros r Hin _. apply years_of_In. exists r. split; [assumption | reflexivity].
Qed.

(** ** The page of a run *)

(** X15.  When the frame is not in the cache and the load raises, the
    page is the title and one error message, no part of a report is
    written, and the cache is left as it was, so that the next run reads
    the file again. *)
Theorem main_load_failure (seeds : nat -> N) (cache : Cache) (e : exn) :
  dict_get tweets_js cache = None ->
  load_twitter_data tweets_js = Raise e ->
  main seeds cache = ([Title; Error e], cache).
Proof.
  intros Hcache Hload. unfold main, cached_load_twitter_data.
  rewrite Hcache, Hload. reflexivity.
Qed.

Lemma render_years_no_error (seeds : nat -> N) (df : DataFrame)
  (years : list (option Z)) (e : exn) :
  ~ In (Error e) (fst (render_years seeds df years)).
Proof.
  revert seeds. induction years as [|y years IH]; intros seeds; simpl; [tauto|].
  destruct (analyze_year (seeds O) (select_year df y)) as [[[c t] f]|e'].
  - specialize (IH (fun k => seeds (S k))).
    destruct (render_years (fun k => seeds (S k)) df years) as [rest r].
    simpl in *. intros H.
    repeat (destruct H as [H|H]; [discriminate|]). exact (IH H).
  - simpl. intros [H|[]]. discriminate.
Qed.

Lemma render_years_headers (seeds : nat -> N) (df : DataFrame)
  (years : list (option Z)) :
  exists k,
    page_years (fst (render_years seeds df years)) = firstn k years /\
    (snd (render_years seeds df years) = None -> k = length years) /\
    (forall e, snd (render_years seeds df years) = Some e ->
               exists j y, k = S j /\ nth_error years j = Some y /\
                           analyze_year (seeds j) (select_year df y) = Raise e).
Proof.
  revert seeds. induction years as [|y years IH]; intros seeds; simpl.
  - exists 0. split; [reflexivity | split; [reflexivity | discriminate]].
  - destruct (analyze_year (seeds O) (select_year df y)) as [[[c t] f]|e'] eqn:E.
    + destruct (IH (fun k => seeds (S k))) as (k & Hk & Hnone & Hsome).
      destruct (render_years (fun k => seeds (S k)) df years) as [rest r].
      simpl in *. exists (S k). split; [|split].
      * simpl. f_equal. exact Hk.
      * intros Hr. f_equal. apply Hnone, Hr.
      * intros e He. destruct (Hsome e He) as (j & y' & -> & Hnth & Hraise).
        exists (S j), y'. repeat split; assumption.
    + exists 1. split; [reflexivity | split; [discriminate|]].
      intros e He. simpl in He. injection He as <-.
      exists 0, y. repeat split. exact E.
Qed.

(** X16.  A page has at most one error message, and it is its last
    element; the years the page has a header for are the first years of
    the frame, in ascending order, up to the year whose analysis raised,
    and all of them when the page has no error message.  The error
    message, when the frame was loaded, is the exception [analyze_year]
    raised on the frame of the last year that has a header. *)
Theorem main_page_shape (seeds : nat -> N) (cache : Cache) :
  (forall e, In (Error e) (fst (main seeds cache)) ->
             exists body, fst (main seeds cache) = body ++ [Error e] /\
                          forall e', ~ In (Error e') body) /\
  (forall df, fst (cached_load_twitter_data cache tweets_js) = Return df ->
              exists k, page_years (fst (main seeds cache))
                        = firstn k (years_of df) /\
                        ((forall e, ~ In (Error e) (fst (main seeds cache))) ->
                         k = length (years_of df)) /\
                        (forall e, In (Error e) (fst (main seeds cache)) ->
                           exists j y,
                             k = S j /\ nth_error (years_of df) j = Some y /\
                             analyze_year (seeds j) (select_year df y)
                             = Raise e)).
Proof.
  unfold main.
  destruct (cached_load_twitter_data cache tweets_js) as [[df|e0] cache'].
  - pose proof (render_years_no_error seeds df (years_of df)) as Hno.
    destruct (render_years_headers seeds df (years_of df))
      as (k & Hk & Hnone & Hsome).
    destruct (render_years seeds df (years_of df)) as [page err].
    simpl in *. split.
    + intros e He.
      repeat (destruct He as [He|He]; [discriminate|]).
      apply in_app_or in He. destruct He as [He|He]; [exfalso; exact (Hno e He)|].
      destruct err as [e'|]; [|destruct He].
      destruct He as [He|[]]. injection He as ->.
      exists ([Title; Header_journey; Write_total (length df);
               Write_date_range (series_min (map created_at df))
                                (series_max (map created_at df))] ++ page).
      split; [rewrite <- app_assoc; reflexivity|].
      intros e' He'. simpl in He'.
      repeat (destruct He' as [He'|He']; [discriminate|]).
      exact (Hno e' He').
    + intros df' Hdf. injection Hdf as <-.
      exists k. unfold page_years in *. rewrite flat_map_app.
      split; [|split].
      * rewrite Hk. destruct err; simpl; rewrite app_nil_r; reflexivity.
      * intros Hclean. apply Hnone. destruct err as [e'|]; [|reflexivity].
        exfalso. apply (Hclean e'). right; right; right; right.
        apply in_or_app. right. left. reflexivity.
      * intros e He.
        repeat (destruct He as [He|He]; [discriminate|]).
        apply in_app_or in He. destruct He as [He|He]; [exfalso; exact (Hno e He)|].
        destruct err as [e'|]; [|destruct He].
        destruct He as [He|[]]. injection He as ->.
        apply Hsome. reflexivity.
  - simpl. split.
    + intros e [He|[He|[]]]; [discriminate|]. injection He as ->.
      exists [Title]. split; [reflexivity|].
      intros e' [H|[]]. discriminate.
    + intros df Hdf. discriminate.
Qed.

Lemma analyze_year_empty_frame (seed : N) (e : exn) :
  wordcloud_refuses [] = Some e -> analyze_year seed [] = Raise e.
Proof.
  intros H. unfold analyze_year, analyze_self_expression, nlp_pipe.
  cbn [map mapM bind]. unfold generate_wordcloud. cbn [snd].
  change (Counter_of (content_lemmas [])) with (@nil (str * nat)).
  rewrite H. reflexivity.
Qed.

Lemma render_years_raises (df : DataFrame) (years : list (option Z))
  (y : option Z) :
  In y years ->
  (forall seed, exists e, analyze_year seed (select_year df y) = Raise e) ->
  forall seeds, exists e, snd (render_years seeds df years) = Some e.
Proof.
  intros Hin Hraise. induction years as [|y' years IH]; [destruct Hin|].
  intros seeds. simpl.
  destruct (analyze_year (seeds O) (select_year df y')) as [[[c t] f]|e'] eqn:E.
  - destruct Hin as [->|Hin].
    + destruct (Hraise (seeds O)) as [e He]. congruence.
    + destruct (IH Hin (fun k => seeds (S k))) as [e He].
      destruct (render_years (fun k => seeds (S k)) df years) as [rest r].
      simpl in *. exists e. exact He.
  - exists e'. reflexivity.
Qed.

Lemma StronglySorted_year_lt_last (l : list (option Z)) :
  StronglySorted year_lt l -> In None l -> exists l', l = l' ++ [None].
Proof.
  induction 1 as [|a l Hsorted IH Hall]; intros Hin; [destruct Hin|].
  destruct Hin as [->|Hin].
  - destruct l as [|b l]; [exists []; reflexivity|].
    inversion Hall as [|? ? Hb _]. destruct b; contradiction.
  - destruct (IH Hin) as [l' ->]. exists (a :: l'). reflexivity.
Qed.

Lemma select_year_NaN (df : DataFrame) : select_year df None = [].
Proof.
  unfold select_year. induction df as [|r df IH]; simpl; [reflexivity|].
  destruct (dt_year (created_at r)); simpl; exact IH.
Qed.

(** X17.  One record without a timestamp spoils the run: when the date
    parser gives [NaT] for a cell (as pandas does for [null]), the years
    of the frame end with NaN, no row is selected for it, and, with a
    renderer that refuses an empty table, the loop over the years raises
    (for the NaN year, if not for an earlier one): the page ends with an
    error message, whatever the other records are. *)
Theorem main_with_a_missing_timestamp
  (seeds : nat -> N) (cache : Cache) (df : DataFrame) (e0 : exn) :
  fst (cached_load_twitter_data cache tweets_js) = Return df ->
  In NaT (map created_at df) ->
  wordcloud_refuses [] = Some e0 ->
  (exists years, years_of df = years ++ [None]) /\
  select_year df None = [] /\
  (forall seed, analyze_year seed (select_year df None) = Raise e0) /\
  exists body e, fst (main seeds cache) = body ++ [Error e].
Proof.
  intros Hload Hnat Hrefuse.
  assert (Hnone : In None (years_of df)).
  { apply years_of_In. apply in_map_iff in Hnat.
    destruct Hnat as (r & Hr & Hin). exists r. rewrite Hr. auto. }
  pose proof (select_year_NaN df) as Hempty.
  assert (Hraise : forall seed,
             analyze_year seed (select_year df None) = Raise e0).
  { intros seed. rewrite Hempty. apply analyze_year_empty_frame, Hrefuse. }
  split; [|split; [exact Hempty | split; [exact Hraise|]]].
  { apply StronglySorted_year_lt_last; [|exact Hnone].
    apply years_of_sorted. }
  destruct (render_years_raises df (years_of df) None Hnone) with (seeds := seeds)
    as [e He].
  { intros seed. exists e0. apply Hraise. }
  unfold main.
  destruct (cached_load_twitter_data cache tweets_js) as [loaded cache'].
  simpl in Hload. subst loaded.
  destruct (render_years seeds df (years_of df)) as [page err].
  simpl in He. subst err. simpl.
  exists ([Title; Header_journey; Write_total (length df);
           Write_date_range (series_min (map created_at df))
                            (series_max (map created_at df))] ++ page), e.
  rewrite <- app_assoc. reflexivity.
Qed.

End Program.

(** * The program on explicit archives *)

Example u_example : u "a=;" = [97; 61; 59]%N.
Proof. reflexivity. Qed.

Example loads_example :
  Json.loads (js "[{'a': 1, 'b': [true, null, -2.5e3], 'a': 'x\u00e9\n'}] ")
  = Return (JArray [JObject [(u "a", JString [120; 233; 10]%N);
                             (u "b", JArray [JBool true; JNull;
                                             JFloat (u "-2.5e3")])]]).
Proof. vm_compute. reflexivity. Qed.

Example load_spring_archive :
  load_twitter_data (env := on_archive spring_archive []) tweets_js
  = Return spring_frame.
Proof. vm_compute. reflexivity. Qed.

(** C1, counterexample.  A year whose only record is of March has a
    series of one entry, for March: not twelve, and nothing for January. *)
Lemma tweet_counts_of_one_month :
  load_twitter_data (env := on_archive march_archive []) tweets_js
  = Return march_frame /\
  select_year march_frame (Some 2018%Z) = march_frame /\
  analyze_year (env := on_archive march_archive example_annotations)
               0%N march_frame
  = Return ([((2018, 3)%Z, 1)],
            [(u "GPE", 1)],
            mk_figure [(u "hello", 1); (u "Paris", 1)] tt) /\
  length [((2018, 3)%Z, 1)] <> 12.
Proof. repeat split; try (vm_compute; reflexivity). discriminate. Qed.

Lemma analyze_year_tweet_counts_instance :
  exists first last : Z,
    (1 <= first <= last)%Z /\ (last <= 12)%Z /\
    rows_in_month spring_frame first <> 0 /\
    rows_in_month spring_frame last <> 0 /\
    (forall m, (m < first \/ last < m)%Z -> rows_in_month spring_frame m = 0) /\
    [((2018, 3)%Z, 1); ((2018, 4)%Z, 0); ((2018, 5)%Z, 0); ((2018, 6)%Z, 1)] =
      map (fun m => ((2018%Z, m), rows_in_month spring_frame m))
          (months_from first last) /\
    length [((2018, 3)%Z, 1); ((2018, 4)%Z, 0); ((2018, 5)%Z, 0);
            ((2018, 6)%Z, 1)] = Z.to_nat (last - first + 1).
Proof.
  apply (analyze_year_tweet_counts
           (env := on_archive spring_archive example_annotations)
           0%N 2018%Z spring_frame _
           [(u "GPE", 1)]
           (mk_figure [(u "hello", 1); (u "Paris", 1)] tt)).
  - discriminate.
  - repeat constructor; unfold in_year; eexists;
      (split; [reflexivity | split; [reflexivity | simpl; lia]]).
  - vm_compute. reflexivity.
Defined.



(** With its default settings and nothing else on the stack, CPython 3.11
    can nest 994 containers and converts integer literals of 4300 digits.
    A text of a thousand opening brackets and a text holding an integer of
    five thousand digits are beyond these limits. *)
Example texts_beyond_the_default_limits :
  ~ within_interpreter_limits 994 4300 (json_text (repeat 91%N 1000)) /\
  ~ within_interpreter_limits 994 4300 (json_text (91%N :: repeat 49%N 5000)).
Proof.
  split; intros [Hnesting Hdigits].
  - apply Nat.leb_le in Hnesting. vm_compute in Hnesting. discriminate.
  - apply Nat.leb_le in Hdigits. vm_compute in Hdigits. discriminate.
Qed.

(** C3, counterexample.  Of three records one has a [created_at] that is
    not a date: the load raises [ValueError] and returns no frame, where
    the claim expects a frame of two records. *)
Lemma one_refused_timestamp_aborts :
  read_payload one_bad_archive
  = Return (JArray
    [JObject [(u "tweet", JObject [(u "id", JString (u "1"));
        (u "created_at", JString (u "Wed Mar 14 20:19:24 +0000 2018"));
        (u "full_text", JString (u "one"))])];
     JObject [(u "tweet", JObject [(u "id", JString (u "2"));
        (u "created_at", JString (u "not a date"));
        (u "full_text", JString (u "two"))])];
     JObject [(u "tweet", JObject [(u "id", JString (u "3"));
        (u "created_at", JString (u "Thu Jun 14 08:00:00 +0000 2018"));
        (u "full_text", JString (u "three"))])]]) /\
  map (fun t => archive_to_datetime (raw_created_at t)) one_bad_tweets
  = [Return (TS (mk_datetime 2018 3 14 20 19 24));
     Raise ValueError;
     Return (TS (mk_datetime 2018 6 14 8 0 0))] /\
  load_twitter_data (env := on_archive one_bad_archive []) tweets_js
  = Raise ValueError.
Proof. repeat split; vm_compute; reflexivity. Qed.

Lemma load_twitter_data_refused_timestamp_instance :
  load_twitter_data (env := on_archive one_bad_archive []) tweets_js
  = Raise ValueError /\
  (forall df,
      load_twitter_data (env := on_archive one_bad_archive []) tweets_js
      = Return df ->
      Forall2 (row_of (env := on_archive one_bad_archive []))
              one_bad_tweets df /\
      length df = length one_bad_tweets).
Proof.
  destruct (load_twitter_data_refused_timestamp
              (env := on_archive one_bad_archive [])
              tweets_js one_bad_archive
              (JArray (map (fun t => JObject [(u "tweet",
                              JObject [(u "id", raw_id t);
                                       (u "created_at", raw_created_at t);
                                       (u "full_text", raw_full_text t)])])
                           one_bad_tweets))
              one_bad_tweets)
    as [Hraise Hrows].
  - reflexivity.
  - vm_compute. reflexivity.
  - vm_compute. reflexivity.
  - split; [|exact Hrows].
    apply (Hraise [mk_raw (JString (u "1"))
                     (JString (u "Wed Mar 14 20:19:24 +0000 2018"))
                     (JString (u "one"))]
                  (mk_raw (JString (u "2")) (JString (u "not a date"))
                     (JString (u "two")))
                  [mk_raw (JString (u "3"))
                     (JString (u "Thu Jun 14 08:00:00 +0000 2018"))
                     (JString (u "three"))]
                  ValueError).
    + reflexivity.
    + repeat constructor. eexists. vm_compute. reflexivity.
    + vm_compute. reflexivity.
Defined.

(** C4, counterexample.  With every [created_at] refused the load raises
    the date parser's [ValueError], not an [EmptyArchiveError]. *)
Lemma no_valid_record_exceptions :
  map (fun t => archive_to_datetime (raw_created_at t)) all_bad_tweets
  = [Raise ValueError; Raise ValueError] /\
  load_twitter_data (env := on_archive all_bad_archive []) tweets_js
  = Raise ValueError /\
  load_twitter_data (env := on_archive all_bad_archive []) tweets_js
  <> Raise EmptyArchiveError.
Proof.
  repeat split; try (vm_compute; reflexivity); vm_compute; discriminate.
Qed.

Lemma load_twitter_data_no_valid_record_instance :
  exists e, archive_to_datetime (JString (u "not a date")) = Raise e /\
            load_twitter_data (env := on_archive all_bad_archive []) tweets_js
            = Raise e.
Proof.
  apply (load_twitter_data_no_valid_record
           (env := on_archive all_bad_archive [])
           tweets_js all_bad_archive
           (JArray (map (fun t => JObject [(u "tweet",
                           JObject [(u "id", raw_id t);
                                    (u "created_at", raw_created_at t);
                                    (u "full_text", raw_full_text t)])])
                        all_bad_tweets))
           (mk_raw (JString (u "1")) (JString (u "not a date"))
                   (JString (u "one")))
           [mk_raw (JString (u "2")) (JString (u "yesterday"))
                   (JString (u "two"))]).
  - reflexivity.
  - vm_compute. reflexivity.
  - vm_compute. reflexivity.
  - repeat constructor; eexists; vm_compute; reflexivity.
Defined.

Example load_empty_archive :
  load_twitter_data (env := on_archive empty_archive []) tweets_js
  = Raise (KeyError (u "created_at")).
Proof. vm_compute. reflexivity. Qed.

Lemma load_twitter_data_extracts_fields_instance :
  extract_tweets
    (JArray
       [JObject [(u "tweet", JObject [(u "id", JString (u "1"));
           (u "created_at", JString (u "Wed Mar 14 20:19:24 +0000 2018"));
           (u "full_text", JString (u "hello Paris"));
           (u "text", JString (u "hello"))])];
        JObject [(u "tweet", JObject [(u "id", JString (u "2"));
           (u "created_at", JString (u "Thu Jun 14 08:00:00 +0000 2018"));
           (u "text", JString (u "the , and"))])]])
  = Return spring_tweets /\
  load_twitter_data (env := on_archive spring_archive []) tweets_js
  = to_frame (env := on_archive spring_archive []) spring_tweets.
Proof.
  apply (load_twitter_data_extracts_fields
           (env := on_archive spring_archive []) tweets_js spring_archive).
  - reflexivity.
  - vm_compute. reflexivity.
  - repeat constructor; unfold post_fields; eexists _, _;
      (split; [reflexivity|]); repeat (split; [reflexivity|]).
    + left. reflexivity.
    + right. split; reflexivity.
Defined.

(** C8, counterexample.  Two posts of the archive have the id 7, and so
    have two rows of the frame: nothing is deduplicated. *)
Lemma repeated_id_is_kept :
  load_twitter_data (env := on_archive repeated_id_archive []) tweets_js
  = Return repeated_id_frame /\
  map id repeated_id_frame = [JString (u "7"); JString (u "7")] /\
  ~ NoDup (map id repeated_id_frame).
Proof.
  split; [vm_compute; reflexivity|]. split; [reflexivity|].
  intros H. inversion H as [|? ? Hnotin _]; subst. apply Hnotin. left. reflexivity.
Qed.

Lemma load_twitter_data_keeps_every_id_instance :
  map id repeated_id_frame = map raw_id repeated_id_tweets.
Proof.
  apply (load_twitter_data_keeps_every_id
           (env := on_archive repeated_id_archive [])
           tweets_js repeated_id_archive
           (JArray (map (fun t => JObject [(u "tweet",
                           JObject [(u "id", raw_id t);
                                    (u "created_at", raw_created_at t);
                                    (u "full_text", raw_full_text t)])])
                        repeated_id_tweets))
           repeated_id_tweets repeated_id_frame).
  - reflexivity.
  - vm_compute. reflexivity.
  - vm_compute. reflexivity.
  - vm_compute. reflexivity.
Defined.

Lemma analyze_self_expression_lemma_filter_instance :
  exists entities_count lemmas_count : Counter,
    analyze_self_expression (env := on_archive spring_archive example_annotations)
      [JString (u "hello Paris"); JString (u "the , and")]
    = Return (entities_count, lemmas_count) /\
    (forall l n, In (l, n) lemmas_count ->
       n = length (filter (fun t => keep_token t && str_eqb (lemma_ t) l)
                          (flat_map tokens [doc_hello_paris; doc_stop_words])) /\
       exists doc t, In doc [doc_hello_paris; doc_stop_words] /\
                     In t (tokens doc) /\ lemma_ t = l /\
                     is_stop t = false /\ is_punct t = false /\
                     is_alpha t = true) /\
    (forall d1 doc d2, [doc_hello_paris; doc_stop_words] = d1 ++ doc :: d2 ->
       Forall flagged (tokens doc) ->
       lemmas_count = Counter_of (content_lemmas (d1 ++ d2))) /\
    (forall doc, [doc_hello_paris; doc_stop_words] = [doc] ->
       Forall flagged (tokens doc) -> lemmas_count = []).
Proof.
  apply (analyze_self_expression_lemma_filter
           (env := on_archive spring_archive example_annotations)
           [JString (u "hello Paris"); JString (u "the , and")]
           [doc_hello_paris; doc_stop_words]).
  vm_compute. reflexivity.
Defined.

Example stop_words_give_no_lemma :
  analyze_self_expression (env := on_archive spring_archive example_annotations)
                          [JString (u "the , and")] = Return ([], []) /\
  analyze_self_expression (env := on_archive spring_archive example_annotations)
      [JString (u "hello Paris"); JString (u "the , and")]
  = Return ([(u "GPE", 1)], [(u "hello", 1); (u "Paris", 1)]).
Proof. split; vm_compute; reflexivity. Qed.

Lemma analyze_year_top_entities_instance :
  let labels := entity_labels [doc_five_mentions] in
  let top_entities := [(u "ORG", 2); (u "GPE", 2); (u "PERSON", 1)] in
  length top_entities = Nat.min 10 (length (nodup str_eq_dec labels)) /\
  (forall a n, In (a, n) top_entities ->
               In a labels /\ n = occurrences a labels) /\
  (forall i j a n b m, i < j ->
     nth_error top_entities i = Some (a, n) ->
     nth_error top_entities j = Some (b, m) ->
     m <= n /\ (m = n -> first_index a labels < first_index b labels)) /\
  (forall a n b, In (a, n) top_entities -> In b labels ->
                 ~ In b (map fst top_entities) -> occurrences b labels <= n).
Proof.
  apply (analyze_year_top_entities
           (env := on_archive spring_archive example_annotations)
           0%N mentions_frame [doc_five_mentions]
           [((2020, 1)%Z, 1)]
           [(u "ORG", 2); (u "GPE", 2); (u "PERSON", 1)]
           (mk_figure [(u "visit", 1)] tt)).
  - vm_compute. reflexivity.
  - vm_compute. reflexivity.
Defined.

Example main_on_spring_archive :
  map reported
      (fst (main (env := on_archive spring_archive example_annotations)
                 (fun k => N.of_nat k) []))
  = [Title; Header_journey; Write_total 2;
     Write_date_range (TS (mk_datetime 2018 3 14 20 19 24))
                      (TS (mk_datetime 2018 6 14 8 0 0));
     Header_year (Some 2018%Z);
     Subheader_rhythm;
     Line_chart [((2018, 3)%Z, 1); ((2018, 4)%Z, 0); ((2018, 5)%Z, 0);
                 ((2018, 6)%Z, 1)];
     Subheader_subjects; Bar_chart [(u "GPE", 1)];
     Subheader_vocabulary;
     Pyplot (mk_figure [(u "hello", 1); (u "Paris", 1)] tt);
     Write_rule].
Proof. vm_compute. reflexivity. Qed.

(** * Further properties on explicit archives, and across environments *)

Lemma mapM_ext {A B : Type} (f g : A -> result B) (l : list A) :
  (forall x, f x = g x) -> mapM f l = mapM g l.
Proof.
  intros H. induction l as [|x l IH]; simpl; [reflexivity|].
  rewrite H, IH. reflexivity.
Qed.

Lemma analyze_year_same_annotations (env1 env2 : Capabilities)
  (s1 s2 : N) (df_year : DataFrame) :
  (forall v, @nlp env1 v = @nlp env2 v) ->
  (forall c, @wordcloud_refuses env1 c = @wordcloud_refuses env2 c) ->
  match analyze_year (env := env1) s1 df_year,
        analyze_year (env := env2) s2 df_year with
  | Return (c1, t1, f1), Return (c2, t2, f2) =>
      c1 = c2 /\ t1 = t2 /\ drawn_from f1 = drawn_from f2
  | Raise e1, Raise e2 => e1 = e2
  | _, _ => False
  end.
Proof.
  intros Hnlp Hrefuse. unfold analyze_year, analyze_self_expression, nlp_pipe.
  rewrite (mapM_ext _ _ (map full_text df_year) Hnlp).
  destruct (mapM (@nlp env2) (map full_text df_year)) as [docs|e];
    cbn [bind]; [|reflexivity].
  unfold generate_wordcloud. cbn [snd fst]. rewrite Hrefuse.
  destruct (@wordcloud_refuses env2 (Counter_of (content_lemmas docs)));
    cbn [bind]; auto.
Qed.

Lemma render_years_same_annotations (env1 env2 : Capabilities)
  (s1 s2 : nat -> N) (df : DataFrame) (years : list (option Z)) :
  (forall v, @nlp env1 v = @nlp env2 v) ->
  (forall c, @wordcloud_refuses env1 c = @wordcloud_refuses env2 c) ->
  map reported (fst (render_years (env := env1) s1 df years)) =
  map reported (fst (render_years (env := env2) s2 df years)) /\
  snd (render_years (env := env1) s1 df years) =
  snd (render_years (env := env2) s2 df years).
Proof.
  intros Hnlp Hrefuse. revert s1 s2.
  induction years as [|y years IH]; intros s1 s2; simpl; [auto|].
  pose proof (analyze_year_same_annotations env1 env2 (s1 O) (s2 O)
                (select_year df y) Hnlp Hrefuse) as H.
  destruct (analyze_year (env := env1) (s1 O) (select_year df y))
    as [[[c1 t1] f1]|e1];
    destruct (analyze_year (env := env2) (s2 O) (select_year df y))
      as [[[c2 t2] f2]|e2]; try contradiction.
  - destruct H as (-> & -> & Hfig).
    specialize (IH (fun k => s1 (S k)) (fun k => s2 (S k))).
    destruct (render_years (env := env1) (fun k => s1 (S k)) df years)
      as [rest1 r1].
    destruct (render_years (env := env2) (fun k => s2 (S k)) df years)
      as [rest2 r2].
    simpl in *. destruct IH as [-> ->]. rewrite Hfig. auto.
  - subst e2. simpl. auto.
Qed.

(** X18.  The cache is keyed by the path alone: once a frame is cached
    for [tweets.js], a run neither reads the file nor parses a date, so
    two environments with the same annotator and renderer report the same
    data from the cached frame even if the file has a different content,
    and the cache stays as it is. *)
Theorem main_serves_cached_frame (env1 env2 : Capabilities)
  (seeds1 seeds2 : nat -> N) (cache : Cache) (df : DataFrame) :
  (forall v, @nlp env1 v = @nlp env2 v) ->
  (forall c, @wordcloud_refuses env1 c = @wordcloud_refuses env2 c) ->
  dict_get tweets_js cache = Some df ->
  map reported (fst (main (env := env1) seeds1 cache)) =
  map reported (fst (main (env := env2) seeds2 cache)) /\
  snd (main (env := env1) seeds1 cache) = cache.
Proof.
  intros Hnlp Hrefuse Hcache. unfold main, cached_load_twitter_data.
  rewrite Hcache.
  destruct (render_years_same_annotations env1 env2 seeds1 seeds2 df
              (years_of df) Hnlp Hrefuse) as [Hpage Herr].
  destruct (render_years (env := env1) seeds1 df (years_of df)) as [p1 r1].
  destruct (render_years (env := env2) seeds2 df (years_of df)) as [p2 r2].
  simpl in *. subst r2. split; [|reflexivity].
  rewrite !map_app, Hpage. destruct r1; reflexivity.
Qed.

Lemma main_serves_cached_frame_instance :
  map reported
      (fst (main (env := on_archive spring_archive example_annotations)
                 (fun _ => 0%N) [(tweets_js, spring_frame)])) =
  map reported
      (fst (main (env := on_archive march_archive example_annotations)
                 (fun k => N.of_nat k) [(tweets_js, spring_frame)])) /\
  snd (main (env := on_archive spring_archive example_annotations)
            (fun _ => 0%N) [(tweets_js, spring_frame)])
  = [(tweets_js, spring_frame)].
Proof.
  apply (main_serves_cached_frame
           (on_archive spring_archive example_annotations)
           (on_archive march_archive example_annotations)
           (fun _ => 0%N) (fun k => N.of_nat k)
           [(tweets_js, spring_frame)] spring_frame).
  - reflexivity.
  - reflexivity.
  - reflexivity.
Defined.


Lemma load_twitter_data_exceptions_instance :
  ValueError = IndexError \/ ValueError = JSONDecodeError \/
  ValueError = TypeError \/
  (exists k, ValueError = KeyError k /\ In k subscripted_keys) \/
  (exists cell, archive_to_datetime cell = Raise ValueError).
Proof.
  apply (load_twitter_data_exceptions (env := on_archive one_bad_archive [])
           tweets_js one_bad_archive ValueError).
  - reflexivity.
  - vm_compute. reflexivity.
Defined.

Lemma extract_tweet_missing_key_instance :
  extract_tweet (JObject [(u "tweet", JObject [(u "id", JString (u "1"));
                                               (u "text", JString (u "t"))])])
  = Raise (KeyError (u "created_at")).
Proof.
  apply (proj1 (proj2 (proj1 (proj2 (extract_tweet_missing_key
           [(u "tweet", JObject [(u "id", JString (u "1"));
                                 (u "text", JString (u "t"))])]))
           [(u "id", JString (u "1")); (u "text", JString (u "t"))]
           (JString (u "1")) JNull eq_refl))); reflexivity.
Defined.

Lemma load_twitter_data_not_an_array_instance :
  load_twitter_data (env := on_archive object_archive []) tweets_js
  = Raise TypeError.
Proof.
  apply (load_twitter_data_not_an_array (env := on_archive object_archive [])
           tweets_js object_archive (JObject [(u "tweet", JInt 1)])).
  - reflexivity.
  - vm_compute. reflexivity.
  - intros items H. discriminate H.
Defined.

Lemma load_twitter_data_returns_instance :
  exists content items tweets,
    single_file tweets_js spring_archive tweets_js = Return content /\
    read_payload content = Return (JArray items) /\
    items <> [] /\
    Forall2 post_fields items tweets /\
    Forall2 (row_of (env := on_archive spring_archive [])) tweets spring_frame /\
    spring_frame <> [].
Proof.
  apply (load_twitter_data_returns (env := on_archive spring_archive [])
           tweets_js spring_frame).
  vm_compute. reflexivity.
Defined.

Lemma analyze_self_expression_totals_instance :
  total [(u "GPE", 1)]
  = length (flat_map ents [doc_hello_paris; doc_stop_words]) /\
  total [(u "hello", 1); (u "Paris", 1)]
  = length (filter keep_token
                   (flat_map tokens [doc_hello_paris; doc_stop_words])).
Proof.
  apply (analyze_self_expression_totals
           (env := on_archive spring_archive example_annotations)
           [JString (u "hello Paris"); JString (u "the , and")]
           [doc_hello_paris; doc_stop_words]);
    vm_compute; reflexivity.
Defined.

Lemma analyze_self_expression_app_instance :
  exists e l,
    analyze_self_expression
      (env := on_archive spring_archive example_annotations)
      ([JString (u "hello Paris")]
         ++ [JString (u "five mentions"); JString (u "hello Paris")])
    = Return (e, l) /\
    forall k,
      count_of k e
      = count_of k [(u "GPE", 1)]
        + count_of k [(u "ORG", 2); (u "GPE", 3); (u "PERSON", 1)] /\
      count_of k l
      = count_of k [(u "hello", 1); (u "Paris", 1)]
        + count_of k [(u "visit", 1); (u "hello", 1); (u "Paris", 1)].
Proof.
  apply (analyze_self_expression_app
           (env := on_archive spring_archive example_annotations));
    vm_compute; reflexivity.
Defined.

Lemma analyze_self_expression_order_instance :
  exists e' l',
    analyze_self_expression
      (env := on_archive spring_archive example_annotations)
      [JString (u "five mentions"); JString (u "hello Paris")]
    = Return (e', l') /\
    forall k,
      count_of k e' = count_of k [(u "GPE", 3); (u "ORG", 2); (u "PERSON", 1)] /\
      count_of k l' = count_of k [(u "hello", 1); (u "Paris", 1); (u "visit", 1)].
Proof.
  apply (analyze_self_expression_order
           (env := on_archive spring_archive example_annotations)
           [JString (u "hello Paris"); JString (u "five mentions")]).
  - apply perm_swap.
  - vm_compute. reflexivity.
Defined.

Lemma annotator_failure_propagates_instance :
  analyze_self_expression
    (env := on_archive spring_archive example_annotations)
    (map full_text number_text_frame) = Raise ValueError /\
  analyze_year (env := on_archive spring_archive example_annotations)
               0%N number_text_frame = Raise ValueError.
Proof.
  apply (annotator_failure_propagates
           (env := on_archive spring_archive example_annotations)
           0%N number_text_frame [JString (u "hello Paris")] (JInt 5) []).
  - reflexivity.
  - repeat constructor. eexists. reflexivity.
  - reflexivity.
Defined.

Lemma analyze_year_no_content_word_instance :
  analyze_year (env := on_archive spring_archive example_annotations)
               0%N stop_words_frame = Raise ValueError.
Proof.
  apply (analyze_year_no_content_word
           (env := on_archive spring_archive example_annotations)
           0%N stop_words_frame [doc_stop_words]).
  - vm_compute. reflexivity.
  - constructor; [|constructor]. simpl.
    constructor; [left; reflexivity|].
    constructor; [right; left; reflexivity|].
    constructor; [left; reflexivity | constructor].
  - reflexivity.
Defined.

Lemma analyze_year_top_entities_complete_instance :
  Permutation [(u "ORG", 2); (u "GPE", 2); (u "PERSON", 1)]
              (Counter_of (entity_labels [doc_five_mentions])) /\
  forall a, In a (entity_labels [doc_five_mentions]) ->
            In (a, occurrences a (entity_labels [doc_five_mentions]))
               [(u "ORG", 2); (u "GPE", 2); (u "PERSON", 1)].
Proof.
  apply (analyze_year_top_entities_complete
           (env := on_archive spring_archive example_annotations)
           0%N mentions_frame [doc_five_mentions]
           [((2020, 1)%Z, 1)]
           [(u "ORG", 2); (u "GPE", 2); (u "PERSON", 1)]
           (mk_figure [(u "visit", 1)] tt)).
  - vm_compute. reflexivity.
  - vm_compute. reflexivity.
  - vm_compute. lia.
Defined.

Lemma analyze_year_tweet_counts_total_instance :
  list_sum (map snd [((2018, 3)%Z, 1); ((2018, 4)%Z, 0); ((2018, 5)%Z, 0);
                     ((2018, 6)%Z, 1)])
  = length (filter has_timestamp spring_frame).
Proof.
  apply (proj1 (analyze_year_tweet_counts_total
                  (env := on_archive spring_archive example_annotations)
                  0%N spring_frame _
                  [(u "GPE", 1)]
                  (mk_figure [(u "hello", 1); (u "Paris", 1)] tt)
                  ltac:(vm_compute; reflexivity))).
Defined.

Lemma main_load_failure_instance :
  main (env := on_archive empty_archive example_annotations)
       (fun _ => 0%N) []
  = ([Title; Error (KeyError (u "created_at"))], []).
Proof.
  apply (main_load_failure
           (env := on_archive empty_archive example_annotations)).
  - reflexivity.
  - vm_compute. reflexivity.
Defined.

Lemma main_with_a_missing_timestamp_instance :
  exists body e,
    fst (main (env := on_archive null_date_archive example_annotations)
              (fun _ => 0%N) [])
    = body ++ [Error e].
Proof.
  apply (main_with_a_missing_timestamp
           (env := on_archive null_date_archive example_annotations)
           (fun _ => 0%N) [] null_date_frame ValueError).
  - vm_compute. reflexivity.
  - right. left. reflexivity.
  - reflexivity.
Defined.

Example main_on_null_date_archive :
  map reported
      (fst (main (env := on_archive null_date_archive example_annotations)
                 (fun _ => 0%N) []))
  = [Title; Header_journey; Write_total 2;
     Write_date_range (TS (mk_datetime 2018 3 14 20 19 24))
                      (TS (mk_datetime 2018 3 14 20 19 24));
     Header_year (Some 2018%Z);
     Subheader_rhythm; Line_chart [((2018, 3)%Z, 1)];
     Subheader_subjects; Bar_chart [(u "GPE", 1)];
     Subheader_vocabulary;
     Pyplot (mk_figure [(u "hello", 1); (u "Paris", 1)] tt);
     Write_rule;
     Header_year None;
     Error ValueError].
Proof. vm_compute. reflexivity. Qed.
